(** * Format handler of coc.nvim ([src/handler/format.ts])

    A shallow embedding of [FormatHandler]: the bracket pair table, the
    Enter handler with its bracket-enter indentation helper, the request
    slot managed by [withRequestToken], the other event handlers registered
    by the constructor, the save-time format, [tryFormatOnType],
    [documentFormat], [documentRangeFormat] and [dispose].

    Asynchronous functions are split where they suspend: the part that runs
    until the provider call is awaited (named [..._start]) and the
    continuation that runs once that call has settled (named
    [..._resume]).  Between the two, any other handler may run, so every
    continuation takes the state it finds at resumption.  Awaited
    collaborator calls settle as [Resolved] or [Rejected]; what the handler
    does to the editor is returned as a list of [Effect]s.  Sequences of
    steps of the event loop are run by [run]. *)

From Stdlib Require Import ZArith NArith Lia String Ascii.
From stdpp Require Import base numbers option list.

Local Open Scope Z_scope.

(** ** JavaScript strings *)

(** A JavaScript string is a sequence of UTF-16 code units. *)
Definition jsstring := list N.

(** The code units of an ASCII literal. *)
Definition js (s : String.string) : jsstring :=
  List.map Ascii.N_of_ascii (String.list_ascii_of_string s).

Definition LF : N := 10.
Definition TAB : N := 9.
Definition SPACE : N := 32.

(** [s[i]]: the one-unit string at index [i], [undefined] out of range. *)
Definition str_at (s : jsstring) (i : Z) : option N :=
  if i <? 0 then None else s !! Z.to_nat i.

(** [s.length] *)
Definition str_length (s : jsstring) : Z := Z.of_nat (length s).

(** WhiteSpace and LineTerminator of ECMAScript: what [String.prototype.trim]
    strips and what [\s] matches. *)
Definition isWhiteSpace (c : N) : bool :=
  ((9 <=? c) && (c <=? 13) || (c =? 32) || (c =? 160) || (c =? 5760)
   || (8192 <=? c) && (c <=? 8202) || (c =? 8232) || (c =? 8233)
   || (c =? 8239) || (c =? 8287) || (c =? 12288) || (c =? 65279))%N.

Fixpoint dropWhile {A} (p : A -> bool) (l : list A) : list A :=
  match l with
  | [] => []
  | x :: r => if p x then dropWhile p r else l
  end.

Fixpoint takeWhile {A} (p : A -> bool) (l : list A) : list A :=
  match l with
  | [] => []
  | x :: r => if p x then x :: takeWhile p r else []
  end.

(** [s.trim()] *)
Definition trim (s : jsstring) : jsstring :=
  rev (dropWhile isWhiteSpace (rev (dropWhile isWhiteSpace s))).

(** [s.match(/^\s*/)[0]]: the leading white space of [s]. *)
Definition leadingSpace (s : jsstring) : jsstring := takeWhile isWhiteSpace s.

(** [/^\s*$/.test(s)] *)
Definition isBlank (s : jsstring) : bool := forallb isWhiteSpace s.

(** [' '.repeat(n)] *)
Definition repeatSpace (n : nat) : jsstring := replicate n SPACE.

Definition jsstring_eqb (a b : jsstring) : bool := bool_decide (a = b).

(** ** Positions, ranges and edits (vscode-languageserver-protocol) *)

Record Position := mkPosition { line : Z; character : Z }.
Record Range := mkRange { range_start : Position; range_end : Position }.
Record TextEdit := mkTextEdit { range : Range; newText : jsstring }.

(** [Range.create(l1, c1, l2, c2)] *)
Definition Range_create4 (l1 c1 l2 c2 : Z) : Range :=
  mkRange (mkPosition l1 c1) (mkPosition l2 c2).

Record FormatOptions := mkFormatOptions { tabSize : nat; insertSpaces : bool }.

(** The part of a document the handler reads. *)
Record Document := mkDocument {
  getline : Z -> jsstring;
  filetype : jsstring;
  attached : bool;
  isCommandLine : bool
}.

(** ** The bracket pair table *)

(** [pairs], lines 15-21: a [Map] from one character to another. *)
Definition pairs : list (N * N) :=
  [ (60, 62)    (* '<' -> '>' *)
  ; (62, 60)    (* '>' -> '<' *)
  ; (123, 125)  (* '{' -> '}' *)
  ; (91, 93)    (* '[' -> ']' *)
  ; (40, 41)    (* '(' -> ')' *)
  ]%N.

Fixpoint assoc_get (m : list (N * N)) (k : N) : option N :=
  match m with
  | [] => None
  | (k', v) :: r => if (k' =? k)%N then Some v else assoc_get r k
  end.

(** [pairs.get(k)] and [pairs.has(k)] *)
Definition pairs_get (k : N) : option N := assoc_get pairs k.
Definition pairs_has (k : N) : bool := bool_decide (is_Some (pairs_get k)).

(** ** The bracket-enter indentation helper (Enter handler, lines 70-102) *)

Definition vim : jsstring := js "vim"%string.

(** Lines 76-79: the two tests that guard the helper, on
    [pre = doc.getline(line - 1)] and [curr = doc.getline(line)]. *)
Definition bracketMatch (pre curr : jsstring) : bool :=
  match str_at pre (str_length pre - 1) with
  | None => false
  | Some prevChar =>
    pairs_has prevChar
    && match str_at (trim curr) 0 with
       | None => false
       | Some nextChar => bool_decide (pairs_get prevChar = Some nextChar)
       end
  end.

(** Lines 80-99: the edit batch given to [doc.applyEdits] and the position
    given to [window.moveTo]; [ln] is [line], [ft] is [doc.filetype]. *)
Definition bracketEdits (ln : Z) (pre curr ft : jsstring) (opts : FormatOptions)
  : list TextEdit * Position :=
  let space := if insertSpaces opts then repeatSpace (tabSize opts) else [TAB] in
  let preIndent := leadingSpace pre in
  let currIndent := leadingSpace curr in
  let newText0 := [LF] ++ preIndent ++ space in
  let pos := mkPosition (ln - 1) (str_length pre) in
  let isVim := jsstring_eqb ft vim in
  let edits0 :=
    if negb (jsstring_eqb preIndent currIndent) then
      [ mkTextEdit
          (mkRange (mkPosition ln 0) (mkPosition ln (str_length currIndent)))
          (if isVim then js "  \ "%string ++ preIndent else preIndent) ]
    else if isVim then
      [ mkTextEdit
          (Range_create4 ln (str_length currIndent) ln (str_length currIndent))
          (js "  \ "%string) ]
    else [] in
  let newText1 := if isVim then newText0 ++ js "\ "%string else newText0 in
  (edits0 ++ [mkTextEdit (mkRange pos pos) newText1],
   mkPosition ln (str_length newText1 - 1)).

(** ** Promises, effects and collaborators *)

(** How an awaited call settles. *)
Inductive Settled (T : Type) : Type :=
| Resolved (v : T)
| Rejected (message : jsstring).
Arguments Resolved {T} v.
Arguments Rejected {T} message.

(** What the handler does to its collaborators, in order. *)
Inductive Effect :=
| ApplyEdits (edits : list TextEdit)   (* doc.applyEdits(edits) *)
| MoveTo (p : Position)                (* window.moveTo(p) *)
| ShowMessage (msg : jsstring)         (* window.showMessage(msg, 'error') *)
| LogError (text : jsstring)           (* logger.error *)
| LogWarn (text : jsstring).           (* logger.warn *)

Definition isEditorEffect (e : Effect) : bool :=
  match e with
  | ApplyEdits _ | MoveTo _ => true
  | _ => false
  end.

(** ** Cancellation token sources (vscode-jsonrpc) *)

Inductive Origin := FromWithRequestToken | FromWillSave.

(** One [CancellationTokenSource]: whether its token is cancelled, how many
    times [dispose()] was called on it, the listener registered with
    [token.onCancellationRequested] (the request name it captured) as long as
    the token's emitter is alive, and where it was created. *)
Record TokenSource := mkTokenSource {
  cancelled : bool;
  disposals : nat;
  listener : option jsstring;
  origin : Origin
}.

Record StatusBarItem := mkStatusBarItem {
  text : jsstring;
  isProgress : bool;
  shown : bool
}.

(** ** The request slot *)

(** [sources] holds every token source created so far, named by its index;
    [requestTokenSource] and [requestStatusItem] are the fields of
    [FormatHandler]. *)
Record Manager := mkManager {
  sources : list TokenSource;
  requestTokenSource : option nat;
  requestStatusItem : StatusBarItem
}.

Definition set_sources (f : list TokenSource -> list TokenSource) (m : Manager) : Manager :=
  mkManager (f (sources m)) (requestTokenSource m) (requestStatusItem m).
Definition set_slot (s : option nat) (m : Manager) : Manager :=
  mkManager (sources m) s (requestStatusItem m).
Definition set_status (i : StatusBarItem) (m : Manager) : Manager :=
  mkManager (sources m) (requestTokenSource m) i.

(** [token.isCancellationRequested] of source [h] *)
Definition isCancellationRequested (h : nat) (m : Manager) : bool :=
  match sources m !! h with
  | Some src => cancelled src
  | None => false
  end.

(** The listener of lines 157-161, run when the token is cancelled. *)
Definition onCancellationRequested (name : jsstring) (i : StatusBarItem) : StatusBarItem :=
  mkStatusBarItem (name ++ js " request canceled") false false.

(** [source.cancel()]: the first call sets the flag, fires the listener if
    the emitter is alive and drops the emitter; later calls do nothing. *)
Definition cancelSource (src : TokenSource) : TokenSource :=
  mkTokenSource true (disposals src) None (origin src).

Definition cancel (h : nat) (m : Manager) : Manager :=
  match sources m !! h with
  | None => m
  | Some src =>
    if cancelled src then m
    else
      let m' := set_sources (alter cancelSource h) m in
      match listener src with
      | Some name => set_status (onCancellationRequested name (requestStatusItem m')) m'
      | None => m'
      end
  end.

(** [source.dispose()]: drops the emitter; the flag is left as it is. *)
Definition disposeSource (src : TokenSource) : TokenSource :=
  mkTokenSource (cancelled src) (S (disposals src)) None (origin src).

Definition dispose (h : nat) (m : Manager) : Manager :=
  set_sources (alter disposeSource h) m.

(** The handler of lines 61-66, subscribed to CursorMoved, CursorMovedI,
    InsertEnter, TextChangedI, TextChangedP and TextChanged. *)
Definition cancelHandler (m : Manager) : Manager :=
  match requestTokenSource m with
  | Some h => set_slot None (cancel h m)
  | None => m
  end.

(** The source [withRequestToken] creates, with the listener of lines
    157-161 registered on its token. *)
Definition freshSource (name : jsstring) : TokenSource :=
  mkTokenSource false 0 (Some name) FromWithRequestToken.

(** [withRequestToken], lines 150-164: up to the call of [fn(token)].
    Returns the new source, whose token [fn] receives. *)
Definition withRequestToken_start (name : jsstring) (m : Manager) : Manager * nat :=
  let m1 := match requestTokenSource m with
            | Some h => dispose h (cancel h m)
            | None => m
            end in
  let h' := length (sources m1) in
  let m2 := set_slot (Some h')
              (set_sources (fun l => l ++ [freshSource name]) m1) in
  (set_status (mkStatusBarItem (js "requesting " ++ name) true true) m2, h').

Definition hide (i : StatusBarItem) : StatusBarItem :=
  mkStatusBarItem (text i) (isProgress i) false.

(** Lines 172-175: whatever source is in the slot is disposed and the slot
    is emptied. *)
Definition releaseSlot (m : Manager) : Manager :=
  match requestTokenSource m with
  | Some k => set_slot None (dispose k m)
  | None => m
  end.

(** Lines 166-171: the result and what the [catch] block does. *)
Definition caught (name : jsstring) (out : Settled (option (list TextEdit)))
  : option (list TextEdit) * list Effect :=
  match out with
  | Resolved v => (v, [])
  | Rejected msg => (None, [ShowMessage msg; LogError (js "Error on " ++ name)])
  end.

(** [withRequestToken], lines 165-181: from the moment [fn(token)] has
    settled with [out], in whatever state the handler is by then.  [h] is
    the source whose token the closure holds. *)
Definition withRequestToken_resume (name : jsstring) (h : nat)
    (out : Settled (option (list TextEdit))) (m : Manager)
  : Manager * list Effect * option (list TextEdit) :=
  let '(res, effs) := caught name out in
  let m1 := releaseSlot m in
  if isCancellationRequested h m1 then (m1, effs, None)
  else
    (set_status (hide (requestStatusItem m1)) m1,
     effs ++ match res with
             | None => [LogWarn (name ++ js " provider not found!")]
             | Some _ => []
             end,
     res).

(** ** Preferences and collaborators *)

Record FormatPreferences := mkFormatPreferences {
  formatOnType : bool;
  formatOnTypeFiletypes : list jsstring;
  formatOnSaveFiletypes : list jsstring;
  formatOnInsertLeave : bool;
  bracketEnterImprove : bool
}.

(** [l.includes(x)] on an array of strings *)
Definition includes (l : list jsstring) (x : jsstring) : bool :=
  existsb (jsstring_eqb x) l.

(** What the synchronous guards of [tryFormatOnType] ask: the document of a
    buffer, whether a snippet session owns it, whether a provider declares
    the trigger character. *)
Record Workspace := mkWorkspace {
  getDocument : Z -> option Document;
  getSession : Z -> bool;
  hasOnTypeProvider : jsstring -> Document -> bool
}.

(** How each awaited collaborator call settles during one run of a command
    or of an on-type format. *)
Record Collaborators := mkCollaborators {
  workspace_document : Settled (option Document);
  synchronizeDocument : Settled unit;
  getFormatOptions : Settled FormatOptions;
  getSelectedRange : Settled (option Range);
  nvim_eval : Settled (Z * Z * jsstring);        (* [v:lnum, v:count, mode()] *)
  getCursorPosition : Settled Position;
  provideDocumentFormattingEdits : FormatOptions -> Settled (option (list TextEdit));
  provideDocumentRangeFormattingEdits :
    Range -> FormatOptions -> Settled (option (list TextEdit));
  provideDocumentOnTypeEdits : jsstring -> Position -> Settled (option (list TextEdit));
  applyEdits : list TextEdit -> Settled unit;
  moveTo : Position -> Settled unit
}.

Definition onTypeFormat : jsstring := js "onTypeFormat ".
Definition format : jsstring := js "format".

Section Handler.

(** [isWord] of [util/string] and [getChangedFromEdits] of [util/position]
    are imported by the handler; their code is outside this file. *)
Variable isWord : jsstring -> bool.
Variable getChangedFromEdits : Position -> list TextEdit -> option Position.

(** *** tryFormatOnType *)

(** Lines 185-194: the document to format when no guard returns early. *)
Definition tryFormatOnType_guards (prefs : FormatPreferences) (w : Workspace)
    (ch : jsstring) (bufnr : Z) : option Document :=
  if bool_decide (ch = []) || isWord ch || negb (formatOnType prefs) then None
  else if getSession w bufnr then None
  else
    match getDocument w bufnr with
    | None => None
    | Some doc =>
      if negb (attached doc) || isCommandLine doc then None
      else
        let filetypes := formatOnTypeFiletypes prefs in
        if negb (bool_decide (filetypes = [])) && negb (includes filetypes (filetype doc))
        then None
        else if negb (hasOnTypeProvider w ch doc) then None
        else Some doc
    end.

(** Lines 185-196, up to the suspension inside [withRequestToken]. *)
Definition tryFormatOnType_start (prefs : FormatPreferences) (w : Workspace)
    (ch : jsstring) (bufnr : Z) (m : Manager) : option (Manager * nat * Document) :=
  match tryFormatOnType_guards prefs w ch bufnr with
  | None => None
  | Some doc =>
    let '(m', h) := withRequestToken_start onTypeFormat m in
    Some (m', h, doc)
  end.

(** The position the on-type provider is asked about ([pos], line 201),
    as a function of the captured position. *)
Definition onTypeTarget (doc : Document) (insertLeave : bool) (position : Position)
  : Position :=
  if insertLeave
  then mkPosition (line position) (str_length (getline doc (line position)))
  else position.

(** What the operation handed to [withRequestToken] (lines 196-204) leaves
    behind: the rejection of [getCursorPosition], or the captured
    [position] together with the way the operation settled. *)
Inductive OnTypeRun :=
| CursorFailed (message : jsstring)
| Captured (position : Position) (out : Settled (option (list TextEdit))).

Definition onTypeOperation (c : Collaborators) (doc : Document) (ch : jsstring)
    (insertLeave : bool) : OnTypeRun :=
  match getCursorPosition c with
  | Rejected msg => CursorFailed msg
  | Resolved position =>
    let origLine := getline doc (line position) in
    if insertLeave && isBlank origLine then Captured position (Resolved None)
    else
      let pos := if insertLeave
                 then mkPosition (line position) (str_length origLine)
                 else position in
      match synchronizeDocument c with
      | Rejected msg => Captured position (Rejected msg)
      | Resolved _ => Captured position (provideDocumentOnTypeEdits c ch pos)
      end
  end.

(** Lines 205-209, with [edits] non-empty. *)
Definition applyOnTypeEdits (c : Collaborators) (position : Position)
    (edits : list TextEdit) : list Effect * Settled unit :=
  let changed := getChangedFromEdits position edits in
  match applyEdits c edits with
  | Rejected msg => ([ApplyEdits edits], Rejected msg)
  | Resolved _ =>
    match changed with
    | Some d =>
      let to := mkPosition (line position + line d) (character position + character d) in
      ([ApplyEdits edits; MoveTo to], moveTo c to)
    | None => ([ApplyEdits edits], Resolved tt)
    end
  end.

(** Lines 196-209, from the moment the operation has settled. *)
Definition tryFormatOnType_resume (c : Collaborators) (doc : Document)
    (ch : jsstring) (insertLeave : bool) (h : nat) (m : Manager)
  : Manager * list Effect * Settled unit :=
  match onTypeOperation c doc ch insertLeave with
  | CursorFailed msg =>
    let '(m', effs, _) := withRequestToken_resume onTypeFormat h (Rejected msg) m in
    (m', effs, Resolved tt)
  | Captured position out =>
    let '(m', effs, edits) := withRequestToken_resume onTypeFormat h out m in
    match edits with
    | None | Some [] => (m', effs, Resolved tt)
    | Some es =>
      let '(effs', r) := applyOnTypeEdits c position es in
      (m', effs ++ effs', r)
    end
  end.

(** *** documentFormat and documentRangeFormat *)

(** Lines 220-224 and 245-249: apply the edits the request returned. *)
Definition applyFormatEdits {R} (c : Collaborators) (applied none : R)
    (textEdits : option (list TextEdit)) : list Effect * Settled R :=
  match textEdits with
  | None | Some [] => ([], Resolved none)
  | Some es =>
    match applyEdits c es with
    | Rejected msg => ([ApplyEdits es], Rejected msg)
    | Resolved _ => ([ApplyEdits es], Resolved applied)
    end
  end.

(** Lines 213-217: finished early, or suspended in [withRequestToken]
    with the options to give the provider. *)
Definition documentFormat_start (c : Collaborators) (m : Manager)
  : Manager * (Settled bool + nat * FormatOptions) :=
  match workspace_document c with
  | Rejected msg => (m, inl (Rejected msg))
  | Resolved None => (m, inl (Resolved false))
  | Resolved (Some doc) =>
    if negb (attached doc) then (m, inl (Resolved false))
    else
      match synchronizeDocument c with
      | Rejected msg => (m, inl (Rejected msg))
      | Resolved _ =>
        match getFormatOptions c with
        | Rejected msg => (m, inl (Rejected msg))
        | Resolved options =>
          let '(m', h) := withRequestToken_start format m in
          (m', inr (h, options))
        end
      end
  end.

Definition documentFormat_resume (c : Collaborators) (h : nat)
    (options : FormatOptions) (m : Manager) : Manager * list Effect * Settled bool :=
  let '(m', effs, textEdits) :=
    withRequestToken_resume format h (provideDocumentFormattingEdits c options) m in
  let '(effs', r) := applyFormatEdits c true false textEdits in
  (m', effs ++ effs', r).

(** One call of [documentFormat]; [between] is what other handlers did to
    the manager while the provider call was pending. *)
Definition documentFormat (c : Collaborators) (between : Manager -> Manager)
    (m : Manager) : Manager * list Effect * Settled bool :=
  match documentFormat_start c m with
  | (m', inl r) => (m', [], r)
  | (m', inr (h, options)) => documentFormat_resume c h options (between m')
  end.

(** Lines 228-241 *)
Definition documentRangeFormat_start (c : Collaborators) (mode : jsstring)
    (m : Manager) : Manager * (Settled Z + nat * Range * FormatOptions) :=
  match workspace_document c with
  | Rejected msg => (m, inl (Rejected msg))
  | Resolved None => (m, inl (Resolved (-1)))
  | Resolved (Some doc) =>
    if negb (attached doc) then (m, inl (Resolved (-1)))
    else
      match synchronizeDocument c with
      | Rejected msg => (m, inl (Rejected msg))
      | Resolved _ =>
        let range : Settled (option Range) :=
          if negb (bool_decide (mode = [])) then getSelectedRange c
          else
            match nvim_eval c with
            | Rejected msg => Rejected msg
            | Resolved (lnum, count, mode') =>
              if (count =? 0) || jsstring_eqb mode' (js "i") || jsstring_eqb mode' (js "R")
              then Resolved None
              else Resolved (Some (Range_create4 (lnum - 1) 0 (lnum - 1 + count) 0))
            end in
        match range with
        | Rejected msg => (m, inl (Rejected msg))
        | Resolved None => (m, inl (Resolved (-1)))
        | Resolved (Some rg) =>
          match getFormatOptions c with
          | Rejected msg => (m, inl (Rejected msg))
          | Resolved options =>
            let '(m', h) := withRequestToken_start format m in
            (m', inr (h, rg, options))
          end
        end
      end
  end.

Definition documentRangeFormat_resume (c : Collaborators) (h : nat) (rg : Range)
    (options : FormatOptions) (m : Manager) : Manager * list Effect * Settled Z :=
  let '(m', effs, textEdits) :=
    withRequestToken_resume format h
      (provideDocumentRangeFormattingEdits c rg options) m in
  let '(effs', r) := applyFormatEdits c 0 (-1) textEdits in
  (m', effs ++ effs', r).

Definition documentRangeFormat (c : Collaborators) (mode : jsstring)
    (between : Manager -> Manager) (m : Manager) : Manager * list Effect * Settled Z :=
  match documentRangeFormat_start c mode m with
  | (m', inl r) => (m', [], r)
  | (m', inr (h, rg, options)) => documentRangeFormat_resume c h rg options (between m')
  end.

(** *** The handlers that keep the insertion timing state (lines 105-133) *)

(** The closure variables [changedTs], [lastInsert] and [leaveBufnr];
    [None] is [undefined] or [null]. *)
Record Timing := mkTiming {
  changedTs : option Z;
  lastInsert : option Z;
  leaveBufnr : option Z
}.

(** Truthiness of a number that may be missing: [undefined], [null] and
    [0] are falsy. *)
Definition truthy (x : option Z) : bool :=
  match x with
  | Some v => negb (v =? 0)
  | None => false
  end.

(** A call of [tryFormatOnType(ch, bufnr, insertLeave)]. *)
Record OnTypeCall := mkOnTypeCall {
  call_ch : jsstring;
  call_bufnr : Z;
  call_insertLeave : bool
}.

(** InsertCharPre, lines 107-109; [now] is [Date.now()]. *)
Definition onInsertCharPre (now : Z) (t : Timing) : Timing :=
  mkTiming (changedTs t) (Some now) (leaveBufnr t).

(** TextChangedI, lines 110-121; [pre] is [info.pre].  Returns the calls
    of [tryFormatOnType] the handler makes. *)
Definition onTextChangedI (prefs : FormatPreferences) (w : Workspace) (now : Z)
    (bufnr : Z) (pre : jsstring) (t : Timing) : Timing * list OnTypeCall :=
  let t1 := mkTiming (Some now) (lastInsert t) (leaveBufnr t) in
  if negb (truthy (lastInsert t1))
     || (now - default 0 (lastInsert t1) >? 300)
  then (t1, [])
  else
    let t2 := mkTiming (changedTs t1) None (leaveBufnr t1) in
    match getDocument w bufnr with
    | None => (t2, [])
    | Some doc =>
      if isCommandLine doc || negb (attached doc) then (t2, [])
      else
        match str_at pre (str_length pre - 1) with
        | None => (t2, [])
        | Some p =>
          if formatOnType prefs && negb (isWord [p])
          then (t2, [mkOnTypeCall [p] bufnr false])
          else (t2, [])
        end
    end.

(** InsertLeave, lines 123-127 *)
Definition onInsertLeave (prefs : FormatPreferences) (bufnr : Z) (t : Timing) : Timing :=
  if negb (formatOnInsertLeave prefs) || negb (formatOnType prefs) then t
  else mkTiming (changedTs t) (lastInsert t) (Some bufnr).

(** CursorMoved, lines 128-133 *)
Definition onCursorMoved (bufnr : Z) (t : Timing) : Timing * list OnTypeCall :=
  if truthy (leaveBufnr t) && bool_decide (leaveBufnr t = Some bufnr)
  then (mkTiming (changedTs t) (lastInsert t) None, [mkOnTypeCall [LF] bufnr true])
  else (t, []).

(** Enter, lines 67-69: the handler first calls
    [tryFormatOnType('\n', bufnr)]. *)
Definition onEnter_call (bufnr : Z) : OnTypeCall := mkOnTypeCall [LF] bufnr false.

(** Enter, lines 70-102: the rest of the handler, from the moment that call
    has settled with [formatted].  [lineDot] is how [nvim.call('line', '.')]
    settles, [doc] is [workspace.getDocument(bufnr)]. *)
Definition onEnter_resume (c : Collaborators) (bracketEnterImprove : bool)
    (formatted : Settled unit) (lineDot : Settled Z) (doc : option Document)
  : list Effect * Settled unit :=
  match formatted with
  | Rejected msg => ([], Rejected msg)
  | Resolved _ =>
    if bracketEnterImprove then
      match lineDot with
      | Rejected msg => ([], Rejected msg)
      | Resolved l =>
        let ln := l - 1 in
        match doc with
        | None => ([], Resolved tt)
        | Some d =>
          let pre := getline d (ln - 1) in
          let curr := getline d ln in
          if bracketMatch pre curr then
            match getFormatOptions c with
            | Rejected msg => ([], Rejected msg)
            | Resolved opts =>
              let '(edits, to) := bracketEdits ln pre curr (filetype d) opts in
              match applyEdits c edits with
              | Rejected msg => ([ApplyEdits edits], Rejected msg)
              | Resolved _ => ([ApplyEdits edits; MoveTo to], moveTo c to)
              end
            end
          else ([], Resolved tt)
        end
      end
    else ([], Resolved tt)
  end.

End Handler.


(** ** The handler at run time *)

(** The eight subscriptions of the constructor, in the order of the source:
    configuration change (line 39), will-save (40), the cancelling handler
    (61), Enter (67), InsertCharPre (107), TextChangedI (110), InsertLeave
    (123) and CursorMoved (128). *)
Inductive HandlerId :=
| HConfiguration | HWillSave | HCancel | HEnter
| HInsertCharPre | HTextChangedI | HInsertLeave | HCursorMoved.

Global Instance HandlerId_eq_dec : EqDecision HandlerId.
Proof. solve_decision. Defined.

(** A provider call that has not settled yet, with the source whose token
    it was given. *)
Inductive Pending :=
| PendingRequest (h : nat) (name : jsstring)   (* inside withRequestToken *)
| PendingSave (h : nat).                       (* inside willSaveWaitUntil *)

Definition pendingToken (p : Pending) : nat :=
  match p with
  | PendingRequest h _ => h
  | PendingSave h => h
  end.

Definition isPendingRequest (h : nat) (p : Pending) : bool :=
  match p with
  | PendingRequest k _ => bool_decide (k = h)
  | PendingSave _ => false
  end.

Definition isPendingSave (h : nat) (p : Pending) : bool :=
  match p with
  | PendingRequest _ _ => false
  | PendingSave k => bool_decide (k = h)
  end.

Record Runtime := mkRuntime {
  manager : Manager;
  preferences : FormatPreferences;
  pending : list Pending;
  timers : list (nat * Z);       (* armed [setTimeout] callbacks: source, due time *)
  listening : list HandlerId;    (* handlers the event bus still calls *)
  disposables : list HandlerId;  (* [this.disposables] *)
  returned : list (nat * option (list TextEdit));
                                 (* what [withRequestToken] returned, by source *)
  waitUntil : list (nat * Settled (option (list TextEdit)));
                                 (* how [willSaveWaitUntil()] settled, by source *)
  effects : list Effect
}.

Definition set_manager (m : Manager) (r : Runtime) : Runtime :=
  mkRuntime m (preferences r) (pending r) (timers r) (listening r) (disposables r)
    (returned r) (waitUntil r) (effects r).

(** Modelled from the spec: the event bus ([events.on],
    [workspace.onDidChangeConfiguration], [workspace.onWillSaveTextDocument])
    and [disposeAll] of [util] are outside [src/].  "Event bus: subscribe by
    event name(s) to a callback [...]; supports unsubscription as part of
    bulk disposal": a subscription made with a disposables array puts its
    unsubscription into that array, and [disposeAll] runs and removes every
    entry of the array. *)
Definition subscribe (h : HandlerId) (intoDisposables : bool) (r : Runtime) : Runtime :=
  mkRuntime (manager r) (preferences r) (pending r) (timers r)
    (listening r ++ [h])
    (if intoDisposables then disposables r ++ [h] else disposables r)
    (returned r) (waitUntil r) (effects r).

Definition disposeAll (r : Runtime) : Runtime :=
  mkRuntime (manager r) (preferences r) (pending r) (timers r)
    (filter (fun h => h ∉ disposables r) (listening r))
    []
    (returned r) (waitUntil r) (effects r).

(** The manager of a fresh handler. *)
Definition initialManager : Manager :=
  mkManager [] None (mkStatusBarItem [] true false).

(** The constructor, lines 36-134.  The last subscription (line 128) is
    made without [this.disposables]. *)
Definition construct (prefs : FormatPreferences) : Runtime :=
  subscribe HCursorMoved false
   (subscribe HInsertLeave true
    (subscribe HTextChangedI true
     (subscribe HInsertCharPre true
      (subscribe HEnter true
       (subscribe HCancel true
        (subscribe HWillSave true
         (subscribe HConfiguration true
           (mkRuntime initialManager prefs [] [] [] [] [] [] [])))))))).

(** [dispose()], lines 252-254 *)
Definition disposeHandler (r : Runtime) : Runtime := disposeAll r.

(** *** The save-time format (lines 40-60) *)

(** The source [willSaveWaitUntil] creates (line 50). *)
Definition saveSource : TokenSource := mkTokenSource false 0 None FromWillSave.

(** The will-save listener for a document of language [languageId], run
    until the provider call is awaited.  [now] is the time at which
    [setTimeout] is called. *)
Definition willSave_start (languageId : jsstring) (hasFormatProvider : bool)
    (options : Settled FormatOptions) (now : Z) (r : Runtime) : Runtime :=
  let filetypes := formatOnSaveFiletypes (preferences r) in
  if includes filetypes languageId || existsb (fun item => jsstring_eqb item (js "*")) filetypes
  then
    if negb hasFormatProvider then
      mkRuntime (manager r) (preferences r) (pending r) (timers r) (listening r)
        (disposables r) (returned r) (waitUntil r)
        (effects r ++ [LogWarn (js "Format provider not found")])
    else
      match options with
      | Rejected _ => r
      | Resolved _ =>
        let h := length (sources (manager r)) in
        mkRuntime
          (set_sources (fun l => l ++ [saveSource]) (manager r))
          (preferences r)
          (pending r ++ [PendingSave h])
          (timers r ++ [(h, now + 1000)])
          (listening r) (disposables r) (returned r) (waitUntil r) (effects r)
      end
  else r.

Definition timerOf (h : nat) (t : nat * Z) : bool := bool_decide (fst t = h).

(** The timer callback of lines 51-53 for source [h], run at time [now]:
    it runs only if the timer is still armed and due. *)
Definition timeout (now : Z) (h : nat) (r : Runtime) : Runtime :=
  match List.find (timerOf h) (timers r) with
  | Some (_, due) =>
    if due <=? now then
      mkRuntime (cancel h (manager r)) (preferences r) (pending r)
        (List.filter (fun t => negb (timerOf h t)) (timers r))
        (listening r) (disposables r) (returned r) (waitUntil r) (effects r)
    else r
  | None => r
  end.

(** Lines 54-56, from the moment the provider call has settled: a result
    clears the timer and is returned as it is; a rejection leaves
    [willSaveWaitUntil] before [clearTimeout]. *)
Definition willSave_resume (h : nat) (out : Settled (option (list TextEdit)))
    (r : Runtime) : Runtime :=
  if existsb (isPendingSave h) (pending r) then
    mkRuntime (manager r) (preferences r)
      (List.filter (fun p => negb (isPendingSave h p)) (pending r))
      (match out with
       | Resolved _ => List.filter (fun t => negb (timerOf h t)) (timers r)
       | Rejected _ => timers r
       end)
      (listening r) (disposables r) (returned r)
      (waitUntil r ++ [(h, out)]) (effects r)
  else r.

(** *** Steps of the event loop *)

Inductive Label :=
| Cancelling
    (* CursorMoved, CursorMovedI, InsertEnter, TextChangedI, TextChangedP or
       TextChanged is emitted *)
| Request (name : jsstring)
    (* tryFormatOnType, documentFormat or documentRangeFormat reaches
       withRequestToken *)
| Settle (h : nat) (out : Settled (option (list TextEdit)))
    (* the operation given the token of source [h] settles *)
| ConfigurationChanged (prefs : FormatPreferences)
| WillSave (languageId : jsstring) (hasFormatProvider : bool)
    (options : Settled FormatOptions) (now : Z)
| Timeout (now : Z) (h : nat)
| SettleSave (h : nat) (out : Settled (option (list TextEdit)))
| Dispose.

Definition requestName (h : nat) (ps : list Pending) : option jsstring :=
  match List.find (isPendingRequest h) ps with
  | Some (PendingRequest _ name) => Some name
  | _ => None
  end.

Definition step (l : Label) (r : Runtime) : Runtime :=
  match l with
  | Cancelling =>
    if bool_decide (HCancel ∈ listening r)
    then set_manager (cancelHandler (manager r)) r else r
  | Request name =>
    let '(m', h) := withRequestToken_start name (manager r) in
    mkRuntime m' (preferences r) (pending r ++ [PendingRequest h name]) (timers r)
      (listening r) (disposables r) (returned r) (waitUntil r) (effects r)
  | Settle h out =>
    match requestName h (pending r) with
    | Some name =>
      let '(m', effs, res) := withRequestToken_resume name h out (manager r) in
      mkRuntime m' (preferences r)
        (List.filter (fun p => negb (isPendingRequest h p)) (pending r)) (timers r)
        (listening r) (disposables r) (returned r ++ [(h, res)]) (waitUntil r)
        (effects r ++ effs)
    | None => r
    end
  | ConfigurationChanged prefs =>
    if bool_decide (HConfiguration ∈ listening r)
    then mkRuntime (manager r) prefs (pending r) (timers r) (listening r)
           (disposables r) (returned r) (waitUntil r) (effects r)
    else r
  | WillSave languageId hasFormatProvider options now =>
    if bool_decide (HWillSave ∈ listening r)
    then willSave_start languageId hasFormatProvider options now r else r
  | Timeout now h => timeout now h r
  | SettleSave h out => willSave_resume h out r
  | Dispose => disposeHandler r
  end.

(** The state after a sequence of steps, first step first. *)
Definition run (tr : list Label) (r : Runtime) : Runtime :=
  fold_left (fun r l => step l r) tr r.

(** The requests in flight whose token is not cancelled. *)
Definition liveRequests (r : Runtime) : list Pending :=
  List.filter (fun p => negb (isCancellationRequested (pendingToken p) (manager r)))
    (pending r).

(** *** Editor events *)

(** The editor events the constructor subscribes to, with their
    payload. *)
Inductive Event :=
| CursorMoved (bufnr : Z)
| CursorMovedI
| InsertEnter
| TextChangedI (now bufnr : Z) (pre : jsstring)
| TextChangedP
| TextChanged
| Enter (bufnr : Z)
| InsertCharPre (now : Z)
| InsertLeave (bufnr : Z).

(** Whether the handler of lines 61-66 is subscribed to the event. *)
Definition cancels (e : Event) : bool :=
  match e with
  | CursorMoved _ | CursorMovedI | InsertEnter
  | TextChangedI _ _ _ | TextChangedP | TextChanged => true
  | Enter _ | InsertCharPre _ | InsertLeave _ => false
  end.

Section Events.

Variable isWord : jsstring -> bool.

(** One call of [tryFormatOnType], up to its suspension: the steps it
    takes. *)
Definition invoke (w : Workspace) (r : Runtime) (call : OnTypeCall) : list Label :=
  match tryFormatOnType_guards isWord (preferences r) w (call_ch call) (call_bufnr call) with
  | Some _ => [Request onTypeFormat]
  | None => []
  end.

(** The handler of the event other than the cancelling one, when it is
    still subscribed: the new timing state and the calls of
    [tryFormatOnType] it makes. *)
Definition handle (w : Workspace) (e : Event) (r : Runtime) (t : Timing)
  : Timing * list OnTypeCall :=
  match e with
  | CursorMoved bufnr =>
    if bool_decide (HCursorMoved ∈ listening r) then onCursorMoved bufnr t else (t, [])
  | TextChangedI now bufnr pre =>
    if bool_decide (HTextChangedI ∈ listening r)
    then onTextChangedI isWord (preferences r) w now bufnr pre t else (t, [])
  | Enter bufnr =>
    if bool_decide (HEnter ∈ listening r) then (t, [onEnter_call bufnr]) else (t, [])
  | InsertCharPre now =>
    if bool_decide (HInsertCharPre ∈ listening r) then (onInsertCharPre now t, []) else (t, [])
  | InsertLeave bufnr =>
    if bool_decide (HInsertLeave ∈ listening r)
    then (onInsertLeave (preferences r) bufnr t, []) else (t, [])
  | CursorMovedI | InsertEnter | TextChangedP | TextChanged => (t, [])
  end.

(** The steps taken when the event bus emits [e]: the subscribed handlers
    run in the order of their subscription, each up to its first
    suspension. *)
Definition stepsOf (w : Workspace) (e : Event) (r : Runtime) (t : Timing) : list Label :=
  let first := if cancels e then [Cancelling] else [] in
  first ++ flat_map (invoke w (run first r)) (snd (handle w e (run first r) t)).

Definition deliver (w : Workspace) (e : Event) (s : Runtime * Timing) : Runtime * Timing :=
  (run (stepsOf w e (fst s) (snd s)) (fst s),
   fst (handle w e (run (if cancels e then [Cancelling] else []) (fst s)) (snd s))).

End Events.

(** ** Notions the properties are stated with *)

(** The first non-blank character of a line. *)
Definition firstNonBlank (s : jsstring) : option N :=
  head (dropWhile isWhiteSpace s).

(** The last non-blank character of a line. *)
Definition lastNonBlank (s : jsstring) : option N :=
  head (dropWhile isWhiteSpace (rev s)).

(** The cursor after a list of effects, from [cur]: [applyCursor] is where
    applying a batch of edits leaves the cursor, [window.moveTo] puts it at
    its argument. *)
Definition cursorAfter (applyCursor : list TextEdit -> Position -> Position)
    (effs : list Effect) (cur : Position) : Position :=
  fold_left (fun cur e =>
               match e with
               | ApplyEdits es => applyCursor es cur
               | MoveTo p => p
               | _ => cur
               end) effs cur.

Definition resolves {T} (s : Settled T) : Prop := exists v, s = Resolved v.


(** [cancel] seen from the store of sources. *)
Definition cancelOnce (src : TokenSource) : TokenSource :=
  if cancelled src then src else cancelSource src.

(** The invariant of the request slot: the source in the slot is one of
    [withRequestToken], neither cancelled nor disposed; no source was
    disposed twice; a source of [withRequestToken] outside the slot is
    cancelled or disposed. *)
Record SlotInv (m : Manager) : Prop := mkSlotInv {
  slot_source : forall h, requestTokenSource m = Some h ->
    exists src, sources m !! h = Some src /\ cancelled src = false
                /\ disposals src = 0%nat /\ origin src = FromWithRequestToken;
  disposed_once : forall h src, sources m !! h = Some src -> (disposals src <= 1)%nat;
  outside_slot : forall h src, sources m !! h = Some src ->
    origin src = FromWithRequestToken -> requestTokenSource m <> Some h ->
    cancelled src = true \/ disposals src = 1%nat
}.

(** No step removes a source or changes where it was created. *)
Definition keepsOrigin (m m' : Manager) : Prop :=
  forall h src, sources m !! h = Some src ->
    exists src', sources m' !! h = Some src' /\ origin src' = origin src.

Record RuntimeInv (r : Runtime) : Prop := mkRuntimeInv {
  inv_slot : SlotInv (manager r);
  inv_timers : forall h due, In (h, due) (timers r) ->
    exists src, sources (manager r) !! h = Some src /\ origin src = FromWillSave;
  inv_listening : forall hd, hd ∈ listening r -> hd <> HCursorMoved -> hd ∈ disposables r
}.

(** ** Examples *)

(** The document of buffer whose lines [ln - 1] and [ln] are [pre] and
    [curr]. *)
Definition twoLines (ln : Z) (pre curr ft : jsstring) : Document :=
  mkDocument (fun n => if n =? ln - 1 then pre else if n =? ln then curr else [])
    ft true false.

(** Preferences with every feature enabled, for every filetype. *)
Definition examplePreferences : FormatPreferences :=
  mkFormatPreferences true [] [js "*"] true true.

Definition exampleOptions : FormatOptions := mkFormatOptions 2 true.

Definition exampleEdit : TextEdit := mkTextEdit (Range_create4 0 0 0 0) (js "x").

(** A TypeScript buffer: line 3 ends with an opening parenthesis. *)
Definition exampleDocument : Document :=
  mkDocument (fun n => if n =? 3 then js "  foo(" else []) (js "typescript") true false.

(** Collaborators that all answer; the providers return one edit. *)
Definition exampleCollaborators : Collaborators :=
  mkCollaborators
    (Resolved (Some exampleDocument)) (Resolved tt) (Resolved exampleOptions)
    (Resolved (Some (Range_create4 0 0 1 0))) (Resolved (1, 1, js "n"))
    (Resolved (mkPosition 3 5))
    (fun _ => Resolved (Some [exampleEdit]))
    (fun _ _ => Resolved (Some [exampleEdit]))
    (fun _ _ => Resolved (Some [exampleEdit]))
    (fun _ => Resolved tt) (fun _ => Resolved tt).


Definition exampleWorkspace : Workspace :=
  mkWorkspace (fun _ => Some exampleDocument) (fun _ => false) (fun _ _ => true).

(** A word-character test: ASCII letters, digits and the underscore. *)
Definition exampleIsWord (s : jsstring) : bool :=
  match s with
  | c :: _ =>
    ((c =? 95) || (48 <=? c) && (c <=? 57) || (65 <=? c) && (c <=? 90)
     || (97 <=? c) && (c <=? 122))%N
  | [] => false
  end.

(** Edits that add two lines before the cursor and take five characters
    off its column. *)
Definition exampleChanged (p : Position) (es : list TextEdit) : option Position :=
  Some (mkPosition 2 (-5)).

(** A request of [tryFormatOnType] in flight. *)
Definition requestInFlight : Manager :=
  fst (withRequestToken_start onTypeFormat initialManager).

(** ** The rest of the handler *)



(** One TextChangedI event as the handler of lines 110-121 sees it. *)
Record TextChange := mkTextChange {
  tc_prefs : FormatPreferences;
  tc_workspace : Workspace;
  tc_now : Z;
  tc_bufnr : Z;
  tc_pre : jsstring
}.

(** The calls of [tryFormatOnType] made by a sequence of TextChangedI
    events, first event first. *)
Fixpoint textChanges (isWord : jsstring -> bool) (l : list TextChange) (t : Timing)
  : Timing * list OnTypeCall :=
  match l with
  | [] => (t, [])
  | x :: l' =>
    let '(t1, calls) :=
      onTextChangedI isWord (tc_prefs x) (tc_workspace x) (tc_now x) (tc_bufnr x)
        (tc_pre x) t in
    let '(t2, calls') := textChanges isWord l' t1 in
    (t2, calls ++ calls')
  end.

(** The line obtained from [s] when an edit whose range is the characters
    from [from] to [to] of that line is applied. *)
Definition replaceInLine (s : jsstring) (from to : Z) (newText : jsstring) : jsstring :=
  take (Z.to_nat from) s ++ newText ++ drop (Z.to_nat to) s.

(** The width of one indent unit (line 82). *)
Definition indentWidth (opts : FormatOptions) : Z :=
  if insertSpaces opts then Z.of_nat (tabSize opts) else 1.


(** Collaborators that all answer; the editor reports a pending count of 0
    and no selected range. *)
Definition noRange : Collaborators :=
  mkCollaborators
    (Resolved (Some exampleDocument)) (Resolved tt) (Resolved exampleOptions)
    (Resolved None) (Resolved (4, 0, js "n"))
    (Resolved (mkPosition 3 5))
    (fun _ => Resolved (Some [exampleEdit]))
    (fun _ _ => Resolved (Some [exampleEdit]))
    (fun _ _ => Resolved (Some [exampleEdit]))
    (fun _ => Resolved tt) (fun _ => Resolved tt).

(** * Properties *)

(** ** Strings *)

Lemma str_at_last (s : jsstring) : str_at s (str_length s - 1) = last s.
Proof.
  unfold str_at, str_length. rewrite last_lookup.
  destruct s as [|c s]; [reflexivity|].
  cbn [length]. destruct (Z.ltb_spec (Z.of_nat (S (length s)) - 1) 0) as [H|H]; [lia|].
  f_equal. lia.
Qed.

Lemma dropWhile_snoc {A} (p : A -> bool) (l : list A) (x : A) :
  p x = false -> dropWhile p (l ++ [x]) = dropWhile p l ++ [x].
Proof.
  intros Hx. induction l as [|y l IH]; cbn.
  - now rewrite Hx.
  - destruct (p y); [exact IH | reflexivity].
Qed.

Lemma dropWhile_head {A} (p : A -> bool) (l : list A) (x : A) :
  head (dropWhile p l) = Some x -> p x = false.
Proof.
  induction l as [|y l IH]; cbn; [discriminate|].
  destruct (p y) eqn:E; [exact IH|]. cbn. congruence.
Qed.

Lemma trim_first (s : jsstring) : str_at (trim s) 0 = firstNonBlank s.
Proof.
  unfold str_at, trim, firstNonBlank. cbn.
  destruct (dropWhile isWhiteSpace s) as [|c t] eqn:E; [reflexivity|].
  assert (Hc : isWhiteSpace c = false) by (apply (dropWhile_head _ s); now rewrite E).
  cbn [rev]. rewrite (dropWhile_snoc _ _ _ Hc), rev_app_distr. reflexivity.
Qed.

Lemma pairs_has_get (k : N) : pairs_has k = true <-> is_Some (pairs_get k).
Proof. unfold pairs_has. apply bool_decide_eq_true. Qed.

(** No key of the pair table is a blank. *)
Lemma pairs_key_not_blank (k v : N) : pairs_get k = Some v -> isWhiteSpace k = false.
Proof.
  unfold pairs_get, pairs. cbn [assoc_get].
  repeat match goal with
         | |- context [(?a =? k)%N] =>
           destruct (N.eqb_spec a k) as [<-|_]; [intros _; reflexivity|]
         end.
  discriminate.
Qed.

(** ** The bracket-enter helper *)

(** When the two tests pass, in terms of the two lines. *)
Lemma bracketMatch_spec (pre curr : jsstring) :
  bracketMatch pre curr = true <->
  exists o c, last pre = Some o /\ pairs_get o = Some c /\ firstNonBlank curr = Some c.
Proof.
  unfold bracketMatch. rewrite str_at_last, trim_first.
  destruct (last pre) as [o|]; cycle 1.
  { split; [discriminate | intros (? & ? & ? & _); discriminate]. }
  destruct (pairs_has o) eqn:Hhas; cbn [andb]; cycle 1.
  { split; [discriminate|].
    intros (o' & c & Ho & Hget & _). injection Ho as <-.
    assert (pairs_has o = true) by (apply pairs_has_get; eauto). congruence. }
  destruct (firstNonBlank curr) as [n|]; cycle 1.
  { split; [discriminate | intros (? & ? & _ & _ & ?); discriminate]. }
  rewrite bool_decide_eq_true. split; [eauto|].
  intros (o' & c & Ho & Hc & Hn). congruence.
Qed.

Lemma lastNonBlank_last (s : jsstring) (o : N) :
  last s = Some o -> isWhiteSpace o = false -> lastNonBlank s = Some o.
Proof.
  intros Hl Hws. apply last_Some in Hl as [s' ->].
  unfold lastNonBlank. rewrite rev_app_distr. cbn. now rewrite Hws.
Qed.

(** The helper applies nothing unless the handler reaches it and the two
    tests pass. *)
Lemma onEnter_resume_effects (c : Collaborators) (improve : bool)
    (formatted : Settled unit) (lineDot : Settled Z) (doc : option Document) :
  fst (onEnter_resume c improve formatted lineDot doc) <> [] ->
  exists l d, lineDot = Resolved l /\ doc = Some d
              /\ bracketMatch (getline d (l - 1 - 1)) (getline d (l - 1)) = true.
Proof.
  unfold onEnter_resume.
  destruct formatted; [|now intros []].
  destruct improve; [|now intros []].
  destruct lineDot as [l|]; [|now intros []].
  destruct doc as [d|]; [|now intros []]. cbv zeta.
  destruct (bracketMatch (getline d (l - 1 - 1)) (getline d (l - 1))) eqn:E;
    [|now intros []].
  intros _. exists l, d. now repeat split.
Qed.

(** C6, amended: with bracket-enter-improve enabled, the indentation helper
    applies nothing unless the last non-blank character of the previous
    line is a key of the pair table and the first non-blank character of
    the current line is the character the table gives for that key; and
    that key has to be the very LAST character of the previous line: when
    the previous line ends with a blank the helper applies nothing, and
    when it ends with the key (and the handler reaches the helper) the
    helper applies its edits. *)
Theorem enter_helper_fires_on_last_character :
  forall (c : Collaborators) (formatted : Settled unit) (lineDot : Settled Z)
         (doc : option Document),
    (fst (onEnter_resume c true formatted lineDot doc) <> [] ->
     exists l d o cl,
       lineDot = Resolved l /\ doc = Some d
       /\ last (getline d (l - 1 - 1)) = Some o
       /\ lastNonBlank (getline d (l - 1 - 1)) = Some o
       /\ pairs_get o = Some cl
       /\ firstNonBlank (getline d (l - 1)) = Some cl)
    /\ (forall l d b,
          lineDot = Resolved l -> doc = Some d ->
          last (getline d (l - 1 - 1)) = Some b -> isWhiteSpace b = true ->
          fst (onEnter_resume c true formatted lineDot doc) = [])
    /\ (forall l d opts o cl,
          formatted = Resolved tt -> lineDot = Resolved l -> doc = Some d ->
          getFormatOptions c = Resolved opts ->
          last (getline d (l - 1 - 1)) = Some o -> pairs_get o = Some cl ->
          firstNonBlank (getline d (l - 1)) = Some cl ->
          exists rest,
            fst (onEnter_resume c true formatted lineDot doc)
            = ApplyEdits (fst (bracketEdits (l - 1) (getline d (l - 1 - 1))
                                 (getline d (l - 1)) (filetype d) opts)) :: rest).
Proof.
  intros c formatted lineDot doc. split; [|split].
  - intros Heff. apply onEnter_resume_effects in Heff as (l & d & -> & -> & Hm).
    apply bracketMatch_spec in Hm as (o & cl & Ho & Hget & Hn).
    exists l, d, o, cl. repeat split; try assumption.
    apply lastNonBlank_last; [assumption|]. now apply pairs_key_not_blank in Hget.
  - intros l d b -> -> Hb Hws.
    destruct (onEnter_resume c true formatted (Resolved l) (Some d)) as [effs r] eqn:E.
    destruct effs as [|e effs]; [reflexivity|]. exfalso.
    assert (Hne : fst (onEnter_resume c true formatted (Resolved l) (Some d)) <> [])
      by now rewrite E.
    apply onEnter_resume_effects in Hne as (l' & d' & [= <-] & [= <-] & Hm).
    apply bracketMatch_spec in Hm as (o & cl & Ho & Hget & _).
    apply pairs_key_not_blank in Hget. congruence.
  - intros l d opts o cl -> -> -> Hopts Ho Hget Hn. cbn [onEnter_resume].
    assert (Hm : bracketMatch (getline d (l - 1 - 1)) (getline d (l - 1)) = true)
      by (apply bracketMatch_spec; eauto).
    rewrite Hm, Hopts.
    destruct (bracketEdits (l - 1) (getline d (l - 1 - 1)) (getline d (l - 1))
                (filetype d) opts) as [edits to].
    destruct (applyEdits c edits); cbn [fst]; eauto.
Qed.

(** C6, as stated, fails: the previous line is an opening brace followed by
    a blank, the current line is the closing brace; the last non-blank
    character of the previous line is the brace and the current line starts
    with its partner, the handler reaches the helper and every collaborator
    answers, yet the helper applies nothing. *)
Lemma enter_helper_trailing_blank :
  lastNonBlank (getline (twoLines 1 (js "{ ") (js "}") (js "c")) 0) = Some 123%N
  /\ pairs_get 123%N = Some 125%N
  /\ firstNonBlank (getline (twoLines 1 (js "{ ") (js "}") (js "c")) 1) = Some 125%N
  /\ onEnter_resume exampleCollaborators true (Resolved tt) (Resolved 2)
       (Some (twoLines 1 (js "{ ") (js "}") (js "c")))
     = ([], Resolved tt).
Proof. repeat split. Qed.

(** C10: the pair table maps '>' to '<' as well as '<' to '>'; so when the
    handler reaches the helper with bracket-enter-improve enabled, the
    previous line ends with '>' and the first non-blank character of the
    current line is '<', the helper fires: it applies a batch that ends
    with the insertion, at the end of the previous line, of a newline, the
    previous line's indentation and one indent unit (followed by the
    continuation marker for the vim filetype). *)
Theorem enter_helper_fires_on_gt_lt :
  forall (c : Collaborators) (l : Z) (d : Document) (opts : FormatOptions),
    getFormatOptions c = Resolved opts ->
    last (getline d (l - 1 - 1)) = Some 62%N ->
    firstNonBlank (getline d (l - 1)) = Some 60%N ->
    pairs_get 62%N = Some 60%N /\ pairs_get 60%N = Some 62%N
    /\ exists edits rest,
        fst (onEnter_resume c true (Resolved tt) (Resolved l) (Some d))
        = ApplyEdits edits :: rest
        /\ last edits =
           Some (mkTextEdit
                   (mkRange (mkPosition (l - 1 - 1) (str_length (getline d (l - 1 - 1))))
                            (mkPosition (l - 1 - 1) (str_length (getline d (l - 1 - 1)))))
                   ([LF] ++ leadingSpace (getline d (l - 1 - 1))
                    ++ (if insertSpaces opts then repeatSpace (tabSize opts) else [TAB])
                    ++ (if jsstring_eqb (filetype d) vim then js "\ " else []))).
Proof.
  intros c l d opts Hopts Hpre Hcurr. split; [reflexivity|]. split; [reflexivity|].
  cbn [onEnter_resume].
  assert (Hm : bracketMatch (getline d (l - 1 - 1)) (getline d (l - 1)) = true).
  { apply bracketMatch_spec. exists 62%N, 60%N. now repeat split. }
  rewrite Hm, Hopts.
  assert (Hlast : last (fst (bracketEdits (l - 1) (getline d (l - 1 - 1))
                               (getline d (l - 1)) (filetype d) opts))
                  = Some (mkTextEdit
                   (mkRange (mkPosition (l - 1 - 1) (str_length (getline d (l - 1 - 1))))
                            (mkPosition (l - 1 - 1) (str_length (getline d (l - 1 - 1)))))
                   ([LF] ++ leadingSpace (getline d (l - 1 - 1))
                    ++ (if insertSpaces opts then repeatSpace (tabSize opts) else [TAB])
                    ++ (if jsstring_eqb (filetype d) vim then js "\ " else [])))).
  { unfold bracketEdits. cbn [fst]. rewrite last_snoc. f_equal. f_equal.
    destruct (jsstring_eqb (filetype d) vim);
      [rewrite <- !app_assoc | rewrite app_nil_r]; reflexivity. }
  destruct (bracketEdits (l - 1) (getline d (l - 1 - 1)) (getline d (l - 1))
              (filetype d) opts) as [edits to]. cbn [fst] in Hlast.
  destruct (applyEdits c edits); cbn [fst]; eauto.
Qed.

Lemma enter_helper_fires_on_gt_lt_witness :
  last (getline (twoLines 7 (js "  <a>") (js "  </a>") (js "html")) (8 - 1 - 1))
  = Some 62%N
  /\ firstNonBlank (getline (twoLines 7 (js "  <a>") (js "  </a>") (js "html")) (8 - 1))
     = Some 60%N
  /\ exists edits rest,
      fst (onEnter_resume exampleCollaborators true (Resolved tt) (Resolved 8)
             (Some (twoLines 7 (js "  <a>") (js "  </a>") (js "html"))))
      = ApplyEdits edits :: rest
      /\ last edits =
         Some (mkTextEdit (mkRange (mkPosition 6 5) (mkPosition 6 5))
                 (LF :: js "    ")).
Proof.
  split; [reflexivity|]. split; [reflexivity|].
  exact (proj2 (proj2 (enter_helper_fires_on_gt_lt exampleCollaborators 8
                         (twoLines 7 (js "  <a>") (js "  </a>") (js "html"))
                         exampleOptions eq_refl eq_refl eq_refl))).
Defined.

(** ** The request slot: one continuation *)

Lemma dispose_isCancellationRequested (k h : nat) (m : Manager) :
  isCancellationRequested h (dispose k m) = isCancellationRequested h m.
Proof.
  unfold isCancellationRequested, dispose. cbn.
  destruct (decide (k = h)) as [->|Hne].
  - rewrite list_lookup_alter_eq. now destruct (sources m !! h).
  - now rewrite list_lookup_alter_ne.
Qed.

Lemma releaseSlot_isCancellationRequested (h : nat) (m : Manager) :
  isCancellationRequested h (releaseSlot m) = isCancellationRequested h m.
Proof.
  unfold releaseSlot. destruct (requestTokenSource m); [|reflexivity].
  apply dispose_isCancellationRequested.
Qed.

Lemma releaseSlot_status (m : Manager) :
  requestStatusItem (releaseSlot m) = requestStatusItem m.
Proof. unfold releaseSlot. now destruct (requestTokenSource m). Qed.

Lemma caught_no_editor_effect (name : jsstring) (out : Settled (option (list TextEdit))) :
  List.filter isEditorEffect (snd (caught name out)) = [].
Proof. now destruct out. Qed.

(** A cancelled token makes [withRequestToken] return [null] right after
    the slot is released. *)
Lemma withRequestToken_resume_cancelled (name : jsstring) (h : nat)
    (out : Settled (option (list TextEdit))) (m : Manager) :
  isCancellationRequested h m = true ->
  withRequestToken_resume name h out m = (releaseSlot m, snd (caught name out), None).
Proof.
  intros Hc. unfold withRequestToken_resume.
  destruct (caught name out) as [res effs].
  now rewrite releaseSlot_isCancellationRequested, Hc.
Qed.

Lemma withRequestToken_resume_live (name : jsstring) (h : nat)
    (v : option (list TextEdit)) (m : Manager) :
  isCancellationRequested h m = false ->
  withRequestToken_resume name h (Resolved v) m
  = (set_status (hide (requestStatusItem (releaseSlot m))) (releaseSlot m),
     match v with
     | None => [LogWarn (name ++ js " provider not found!")]
     | Some _ => []
     end, v).
Proof.
  intros Hc. unfold withRequestToken_resume. cbn [caught].
  now rewrite releaseSlot_isCancellationRequested, Hc.
Qed.

(** With the token cancelled at resumption, [withRequestToken] returns null
    and its three callers apply no edit and move no cursor. *)
Lemma cancelled_resume_applies_nothing :
  forall (getChangedFromEdits : Position -> list TextEdit -> option Position)
         (c : Collaborators) (doc : Document) (ch name : jsstring) (insertLeave : bool)
         (options : FormatOptions) (rg : Range)
         (out : Settled (option (list TextEdit))) (h : nat) (m : Manager),
    isCancellationRequested h m = true ->
    (snd (withRequestToken_resume name h out m) = None
     /\ requestStatusItem (fst (fst (withRequestToken_resume name h out m)))
        = requestStatusItem m)
    /\ (snd (tryFormatOnType_resume getChangedFromEdits c doc ch insertLeave h m)
        = Resolved tt
        /\ List.filter isEditorEffect
             (snd (fst (tryFormatOnType_resume getChangedFromEdits c doc ch insertLeave h m)))
           = [])
    /\ (snd (documentFormat_resume c h options m) = Resolved false
        /\ List.filter isEditorEffect (snd (fst (documentFormat_resume c h options m))) = [])
    /\ (snd (documentRangeFormat_resume c h rg options m) = Resolved (-1)
        /\ List.filter isEditorEffect
             (snd (fst (documentRangeFormat_resume c h rg options m))) = []).
Proof.
  intros gc c doc ch name insertLeave options rg out h m Hc.
  repeat split.
  - now rewrite withRequestToken_resume_cancelled.
  - rewrite withRequestToken_resume_cancelled by assumption. apply releaseSlot_status.
  - unfold tryFormatOnType_resume.
    destruct (onTypeOperation c doc ch insertLeave);
      now rewrite withRequestToken_resume_cancelled.
  - unfold tryFormatOnType_resume.
    destruct (onTypeOperation c doc ch insertLeave);
      rewrite withRequestToken_resume_cancelled by assumption; cbn [fst snd];
      try apply caught_no_editor_effect; reflexivity.
  - unfold documentFormat_resume. now rewrite withRequestToken_resume_cancelled.
  - unfold documentFormat_resume.
    rewrite withRequestToken_resume_cancelled by assumption. cbn.
    rewrite app_nil_r. apply caught_no_editor_effect.
  - unfold documentRangeFormat_resume. now rewrite withRequestToken_resume_cancelled.
  - unfold documentRangeFormat_resume.
    rewrite withRequestToken_resume_cancelled by assumption. cbn.
    rewrite app_nil_r. apply caught_no_editor_effect.
Qed.

(** ** Cursor after an on-type format *)

(** C5: an on-type format that is not cancelled, whose operation captured
    the cursor position P and whose provider returned a non-empty edit
    list, applies the edits and then, when [getChangedFromEdits] gives a
    displacement D relative to P, moves the cursor to P + D (line P.line +
    D.line, character P.character + D.character); when it gives none, no
    cursor move is made and the cursor stays where applying the edits put
    it. *)
Theorem on_type_cursor_displacement :
  forall (getChangedFromEdits : Position -> list TextEdit -> option Position)
         (applyCursor : list TextEdit -> Position -> Position)
         (c : Collaborators) (doc : Document) (ch : jsstring) (insertLeave : bool)
         (h : nat) (m : Manager) (P cur : Position) (e : TextEdit) (es : list TextEdit),
    isCancellationRequested h m = false ->
    getCursorPosition c = Resolved P ->
    insertLeave && isBlank (getline doc (line P)) = false ->
    synchronizeDocument c = Resolved tt ->
    provideDocumentOnTypeEdits c ch (onTypeTarget doc insertLeave P)
      = Resolved (Some (e :: es)) ->
    applyEdits c (e :: es) = Resolved tt ->
    let effs := snd (fst (tryFormatOnType_resume getChangedFromEdits c doc ch
                            insertLeave h m)) in
    match getChangedFromEdits P (e :: es) with
    | Some D =>
      effs = [ApplyEdits (e :: es);
              MoveTo (mkPosition (line P + line D) (character P + character D))]
      /\ cursorAfter applyCursor effs cur
         = mkPosition (line P + line D) (character P + character D)
    | None =>
      effs = [ApplyEdits (e :: es)]
      /\ cursorAfter applyCursor effs cur = applyCursor (e :: es) cur
    end.
Proof.
  intros gc ac c doc ch insertLeave h m P cur e es Hlive HP Hblank Hsync Hprov Happly effs.
  subst effs. unfold tryFormatOnType_resume, onTypeOperation.
  rewrite HP, Hblank, Hsync. fold (onTypeTarget doc insertLeave P). rewrite Hprov.
  rewrite withRequestToken_resume_live by assumption.
  unfold applyOnTypeEdits. rewrite Happly.
  destruct (gc P (e :: es)) as [D|]; cbn; split; reflexivity.
Qed.

(** ** The public commands *)









(** ** Debounce of TextChangedI *)

Lemma onTextChangedI_unrecorded (isWord : jsstring -> bool) (prefs : FormatPreferences)
    (w : Workspace) (now bufnr : Z) (pre : jsstring) (t : Timing) :
  lastInsert t = None -> snd (onTextChangedI isWord prefs w now bufnr pre t) = [].
Proof. intros H. unfold onTextChangedI. cbn. now rewrite H. Qed.

(** C4: a TextChangedI event at time [now] for an attached buffer that is
    not a command line, whose just-typed character is [p].  With a keystroke
    recorded at T1: when now - T1 <= 300, on-type formatting is enabled and
    [p] is not a word character, the handler clears T1 and then calls
    [tryFormatOnType(p, bufnr)] exactly once, and any further TextChangedI
    event on the timing state it leaves calls nothing; when now - T1 > 300
    it calls nothing.  With no keystroke recorded it calls nothing. *)
Theorem text_changed_debounce :
  forall (isWord : jsstring -> bool) (prefs : FormatPreferences) (w : Workspace)
         (now bufnr : Z) (pre : jsstring) (t : Timing) (doc : Document) (p : N),
    getDocument w bufnr = Some doc ->
    attached doc = true ->
    isCommandLine doc = false ->
    last pre = Some p ->
    (forall T1, lastInsert t = Some T1 -> T1 <> 0 -> now - T1 <= 300 ->
       formatOnType prefs = true -> isWord [p] = false ->
       snd (onTextChangedI isWord prefs w now bufnr pre t) = [mkOnTypeCall [p] bufnr false]
       /\ lastInsert (fst (onTextChangedI isWord prefs w now bufnr pre t)) = None
       /\ forall prefs' w' now' bufnr' pre',
            snd (onTextChangedI isWord prefs' w' now' bufnr' pre'
                   (fst (onTextChangedI isWord prefs w now bufnr pre t))) = [])
    /\ (forall T1, lastInsert t = Some T1 -> now - T1 > 300 ->
          snd (onTextChangedI isWord prefs w now bufnr pre t) = [])
    /\ (lastInsert t = None ->
          snd (onTextChangedI isWord prefs w now bufnr pre t) = []).
Proof.
  intros isWord prefs w now bufnr pre t doc p Hdoc Hatt Hcmd Hlast.
  split; [|split].
  - intros T1 HT1 Hnz Hgap Hon Hword.
    assert (E : onTextChangedI isWord prefs w now bufnr pre t
                = (mkTiming (Some now) None (leaveBufnr t), [mkOnTypeCall [p] bufnr false])).
    { unfold onTextChangedI. cbn [lastInsert changedTs leaveBufnr]. rewrite HT1.
      cbn [truthy default from_option id].
      destruct (Z.eqb_spec T1 0) as [?|_]; [contradiction|].
      destruct (Z.gtb_spec (now - T1) 300) as [?|_]; [lia|]. cbn [negb orb].
      rewrite Hdoc, Hcmd, Hatt. cbn [negb orb].
      rewrite str_at_last, Hlast, Hon, Hword. reflexivity. }
    rewrite E. cbn [fst snd lastInsert]. split; [reflexivity|]. split; [reflexivity|].
    intros. now apply onTextChangedI_unrecorded.
  - intros T1 HT1 Hgap. unfold onTextChangedI. cbn [lastInsert]. rewrite HT1.
    cbn [default from_option id]. destruct (Z.gtb_spec (now - T1) 300) as [_|?]; [|lia].
    now rewrite orb_true_r.
  - apply onTextChangedI_unrecorded.
Qed.

(** ** The request slot: sequences of steps *)

Lemma cancel_lookup (h k : nat) (m : Manager) :
  sources (cancel h m) !! k
  = if decide (h = k) then cancelOnce <$> sources m !! k else sources m !! k.
Proof.
  unfold cancel. destruct (sources m !! h) as [src|] eqn:E.
  - destruct (cancelled src) eqn:Ec.
    + destruct (decide (h = k)) as [<-|]; [|reflexivity].
      rewrite E. cbn. unfold cancelOnce. now rewrite Ec.
    + assert (Hs : forall i,
                 sources (set_sources (alter cancelSource h) m) !! k
                 = sources (set_status i (set_sources (alter cancelSource h) m)) !! k)
        by reflexivity.
      destruct (listener src); [rewrite <- Hs|]; cbn [set_sources sources];
        rewrite list_lookup_alter; destruct (decide (h = k)) as [<-|]; try reflexivity;
        rewrite E; cbn; unfold cancelOnce; now rewrite Ec.
  - destruct (decide (h = k)) as [<-|]; [|reflexivity]. now rewrite E.
Qed.

Lemma cancel_slot (h : nat) (m : Manager) :
  requestTokenSource (cancel h m) = requestTokenSource m.
Proof.
  unfold cancel. destruct (sources m !! h) as [src|]; [|reflexivity].
  destruct (cancelled src); [reflexivity|]. now destruct (listener src).
Qed.

Lemma cancel_length (h : nat) (m : Manager) :
  length (sources (cancel h m)) = length (sources m).
Proof.
  unfold cancel. destruct (sources m !! h) as [src|]; [|reflexivity].
  destruct (cancelled src); [reflexivity|].
  destruct (listener src); cbn; apply length_alter.
Qed.

Lemma dispose_lookup (h k : nat) (m : Manager) :
  sources (dispose h m) !! k
  = if decide (h = k) then disposeSource <$> sources m !! k else sources m !! k.
Proof.
  unfold dispose. cbn. rewrite list_lookup_alter.
  now destruct (decide (h = k)) as [<-|].
Qed.

(** What one step does to a source: nothing but cancelling or disposing
    it. *)
Lemma releaseSlot_lookup (k : nat) (m : Manager) :
  sources (releaseSlot m) !! k
  = if decide (requestTokenSource m = Some k)
    then disposeSource <$> sources m !! k else sources m !! k.
Proof.
  unfold releaseSlot. destruct (requestTokenSource m) as [h|].
  - cbn [set_slot sources]. rewrite dispose_lookup.
    destruct (decide (h = k)) as [<-|Hn].
    + now rewrite decide_True.
    + rewrite decide_False; [reflexivity|congruence].
  - now rewrite decide_False.
Qed.

Lemma releaseSlot_slot (m : Manager) : requestTokenSource (releaseSlot m) = None.
Proof.
  unfold releaseSlot. destruct (requestTokenSource m) eqn:E; [reflexivity|exact E].
Qed.

Lemma cancelHandler_lookup (k : nat) (m : Manager) :
  sources (cancelHandler m) !! k
  = if decide (requestTokenSource m = Some k)
    then cancelOnce <$> sources m !! k else sources m !! k.
Proof.
  unfold cancelHandler. destruct (requestTokenSource m) as [h|].
  - cbn [set_slot sources]. rewrite cancel_lookup.
    destruct (decide (h = k)) as [<-|Hn].
    + now rewrite decide_True.
    + rewrite decide_False; [reflexivity|congruence].
  - now rewrite decide_False.
Qed.

Lemma cancelHandler_slot (m : Manager) : requestTokenSource (cancelHandler m) = None.
Proof.
  unfold cancelHandler. destruct (requestTokenSource m) eqn:E; [reflexivity|exact E].
Qed.

Lemma withRequestToken_start_token (name : jsstring) (m : Manager) :
  snd (withRequestToken_start name m) = length (sources m)
  /\ requestTokenSource (fst (withRequestToken_start name m)) = Some (length (sources m)).
Proof.
  unfold withRequestToken_start. cbn.
  destruct (requestTokenSource m) as [h|]; [|now split].
  unfold dispose. cbn. now rewrite length_alter, cancel_length.
Qed.

Lemma withRequestToken_start_lookup (name : jsstring) (k : nat) (m : Manager) :
  sources (fst (withRequestToken_start name m)) !! k
  = if decide (k = length (sources m)) then Some (freshSource name)
    else if decide (requestTokenSource m = Some k)
         then disposeSource <$> (cancelOnce <$> sources m !! k)
         else sources m !! k.
Proof.
  unfold withRequestToken_start. cbn [fst set_status set_slot set_sources sources].
  set (m1 := match requestTokenSource m with
             | Some h => dispose h (cancel h m)
             | None => m
             end).
  assert (Hlen : length (sources m1) = length (sources m)).
  { subst m1. destruct (requestTokenSource m); [|reflexivity].
    unfold dispose. cbn. now rewrite length_alter, cancel_length. }
  assert (Hm1 : sources m1 !! k
                = if decide (requestTokenSource m = Some k)
                  then disposeSource <$> (cancelOnce <$> sources m !! k)
                  else sources m !! k).
  { subst m1. destruct (requestTokenSource m) as [h|].
    - rewrite dispose_lookup, cancel_lookup.
      destruct (decide (h = k)) as [<-|Hn].
      + now rewrite !decide_True.
      + rewrite decide_False; [reflexivity|congruence].
    - now rewrite decide_False. }
  destruct (decide (k = length (sources m))) as [->|Hk].
  - rewrite <- Hlen. now rewrite list_lookup_middle.
  - destruct (decide (k < length (sources m1))%nat) as [Hlt|Hge].
    + now rewrite lookup_app_l.
    + rewrite lookup_ge_None_2 by (cbn; rewrite length_app; cbn; lia).
      rewrite <- Hm1. symmetry. apply lookup_ge_None_2. lia.
Qed.

Lemma cancelOnce_fields (src : TokenSource) :
  cancelled (cancelOnce src) = true
  /\ disposals (cancelOnce src) = disposals src
  /\ origin (cancelOnce src) = origin src.
Proof. unfold cancelOnce. destruct (cancelled src) eqn:E; cbn; auto. Qed.

Lemma SlotInv_status (i : StatusBarItem) (m : Manager) :
  SlotInv m -> SlotInv (set_status i m).
Proof. intros [H1 H2 H3]. split; cbn; assumption. Qed.

Lemma SlotInv_cancelHandler (m : Manager) : SlotInv m -> SlotInv (cancelHandler m).
Proof.
  intros [H1 H2 H3]. split.
  - intros h. now rewrite cancelHandler_slot.
  - intros h src. rewrite cancelHandler_lookup.
    destruct (decide (requestTokenSource m = Some h)); [|apply H2].
    destruct (sources m !! h) as [s|] eqn:E; [|discriminate]. cbn.
    intros [= <-]. destruct (cancelOnce_fields s) as (_ & -> & _). eauto.
  - intros h src. rewrite cancelHandler_lookup, cancelHandler_slot.
    destruct (decide (requestTokenSource m = Some h)) as [Hs|Hs].
    + destruct (sources m !! h) as [s|] eqn:E; [|discriminate]. cbn.
      intros [= <-] _ _. left. apply cancelOnce_fields.
    + intros Hl Ho _. eauto.
Qed.

Lemma SlotInv_releaseSlot (m : Manager) : SlotInv m -> SlotInv (releaseSlot m).
Proof.
  intros [H1 H2 H3]. split.
  - intros h. now rewrite releaseSlot_slot.
  - intros h src. rewrite releaseSlot_lookup.
    destruct (decide (requestTokenSource m = Some h)) as [Hs|Hs]; [|apply H2].
    destruct (H1 h Hs) as (s & -> & _ & Hd & _). cbn. intros [= <-]. cbn. lia.
  - intros h src. rewrite releaseSlot_lookup, releaseSlot_slot.
    destruct (decide (requestTokenSource m = Some h)) as [Hs|Hs].
    + destruct (H1 h Hs) as (s & -> & _ & Hd & _). cbn. intros [= <-] _ _.
      right. cbn. now rewrite Hd.
    + intros Hl Ho _. eauto.
Qed.

Lemma SlotInv_start (name : jsstring) (m : Manager) :
  SlotInv m -> SlotInv (fst (withRequestToken_start name m)).
Proof.
  intros [H1 H2 H3].
  destruct (withRequestToken_start_token name m) as [_ Hslot]. split.
  - intros h. rewrite Hslot. intros [= <-]. exists (freshSource name).
    rewrite withRequestToken_start_lookup, decide_True by reflexivity. now repeat split.
  - intros h src. rewrite withRequestToken_start_lookup.
    destruct (decide (h = length (sources m))); [intros [= <-]; cbn; lia|].
    destruct (decide (requestTokenSource m = Some h)) as [Hs|Hs]; [|apply H2].
    destruct (H1 h Hs) as (s & -> & _ & Hd & _). cbn. intros [= <-]. cbn.
    destruct (cancelOnce_fields s) as (_ & -> & _). lia.
  - intros h src. rewrite withRequestToken_start_lookup, Hslot.
    destruct (decide (h = length (sources m))) as [->|Hn]; [congruence|].
    destruct (decide (requestTokenSource m = Some h)) as [Hs|Hs].
    + destruct (H1 h Hs) as (s & -> & _ & Hd & _). cbn. intros [= <-] _ _.
      left. cbn. apply cancelOnce_fields.
    + intros Hl Ho _. eauto.
Qed.

Lemma withRequestToken_resume_manager (name : jsstring) (h : nat)
    (out : Settled (option (list TextEdit))) (m : Manager) :
  exists i, fst (fst (withRequestToken_resume name h out m)) = set_status i (releaseSlot m).
Proof.
  unfold withRequestToken_resume. destruct (caught name out) as [res effs].
  destruct (isCancellationRequested h (releaseSlot m)); cbn [fst].
  - exists (requestStatusItem (releaseSlot m)). now destruct (releaseSlot m).
  - eauto.
Qed.

Lemma SlotInv_resume (name : jsstring) (h : nat)
    (out : Settled (option (list TextEdit))) (m : Manager) :
  SlotInv m -> SlotInv (fst (fst (withRequestToken_resume name h out m))).
Proof.
  intros H. destruct (withRequestToken_resume_manager name h out m) as [i ->].
  now apply SlotInv_status, SlotInv_releaseSlot.
Qed.

Lemma SlotInv_saveSource (m : Manager) :
  SlotInv m -> SlotInv (set_sources (fun l => l ++ [saveSource]) m).
Proof.
  intros [H1 H2 H3]. split; cbn [set_sources sources requestTokenSource].
  - intros h Hs. destruct (H1 h Hs) as (s & Hl & ?). exists s. split; [|assumption].
    now apply lookup_app_l_Some.
  - intros h src Hl. apply lookup_app_Some in Hl as [Hl|[_ Hl]]; [eauto|].
    apply list_lookup_singleton_Some in Hl as [_ <-]. cbn. lia.
  - intros h src Hl Ho Hs. apply lookup_app_Some in Hl as [Hl|[_ Hl]]; [eauto|].
    apply list_lookup_singleton_Some in Hl as [_ <-]. discriminate.
Qed.

(** Cancelling a save-time source, as the timer does, leaves the slot
    alone. *)
Lemma SlotInv_cancel_save (h : nat) (m : Manager) :
  (exists src, sources m !! h = Some src /\ origin src = FromWillSave) ->
  SlotInv m -> SlotInv (cancel h m).
Proof.
  intros (s0 & Hs0 & Ho0) [H1 H2 H3].
  assert (Hslot : requestTokenSource m <> Some h).
  { intros Hs. destruct (H1 h Hs) as (s & Hl & _ & _ & Ho). congruence. }
  split.
  - intros k. rewrite cancel_slot, cancel_lookup. intros Hk.
    rewrite decide_False by congruence. auto.
  - intros k src. rewrite cancel_lookup.
    destruct (decide (h = k)) as [<-|]; [|apply H2].
    rewrite Hs0. cbn. intros [= <-].
    destruct (cancelOnce_fields s0) as (_ & -> & _). eauto.
  - intros k src. rewrite cancel_lookup, cancel_slot.
    destruct (decide (h = k)) as [<-|]; [|apply H3].
    rewrite Hs0. cbn. intros [= <-] Ho.
    destruct (cancelOnce_fields s0) as (_ & _ & Ho'). congruence.
Qed.

Lemma keepsOrigin_cancel (h : nat) (m : Manager) : keepsOrigin m (cancel h m).
Proof.
  intros k src Hl. rewrite cancel_lookup, Hl.
  destruct (decide (h = k)); [|eauto].
  eexists. split; [reflexivity|]. apply cancelOnce_fields.
Qed.

Lemma keepsOrigin_cancelHandler (m : Manager) : keepsOrigin m (cancelHandler m).
Proof.
  intros k src Hl. rewrite cancelHandler_lookup, Hl.
  destruct (decide (requestTokenSource m = Some k)); [|eauto].
  eexists. split; [reflexivity|]. apply cancelOnce_fields.
Qed.

Lemma keepsOrigin_start (name : jsstring) (m : Manager) :
  keepsOrigin m (fst (withRequestToken_start name m)).
Proof.
  intros k src Hl. rewrite withRequestToken_start_lookup.
  rewrite decide_False by (apply lookup_lt_Some in Hl; lia). rewrite Hl.
  destruct (decide (requestTokenSource m = Some k)); [|eauto].
  eexists. split; [reflexivity|]. cbn. apply cancelOnce_fields.
Qed.

Lemma keepsOrigin_resume (name : jsstring) (h : nat)
    (out : Settled (option (list TextEdit))) (m : Manager) :
  keepsOrigin m (fst (fst (withRequestToken_resume name h out m))).
Proof.
  intros k src Hl. destruct (withRequestToken_resume_manager name h out m) as [i ->].
  cbn [set_status sources]. rewrite releaseSlot_lookup, Hl.
  destruct (decide (requestTokenSource m = Some k)); eauto.
Qed.

Lemma RuntimeInv_manager (m' : Manager) (r : Runtime) :
  SlotInv m' -> keepsOrigin (manager r) m' -> RuntimeInv r ->
  RuntimeInv (set_manager m' r).
Proof.
  intros Hs Hk [H1 H2 H3]. split; cbn; [assumption| |assumption].
  intros h due Hin. destruct (H2 h due Hin) as (src & Hl & Ho).
  destruct (Hk h src Hl) as (src' & Hl' & Ho'). exists src'. split; congruence.
Qed.

Lemma RuntimeInv_construct (prefs : FormatPreferences) : RuntimeInv (construct prefs).
Proof.
  split.
  - split; cbn; intros; discriminate.
  - intros h due [].
  - intros hd _ Hne. destruct hd; try congruence;
      apply (bool_decide_unpack _); reflexivity.
Qed.

Lemma RuntimeInv_step (l : Label) (r : Runtime) : RuntimeInv r -> RuntimeInv (step l r).
Proof.
  intros Hr. pose proof Hr as [H1 H2 H3]. destruct l; cbn [step].
  - (* Cancelling *)
    case_bool_decide; [|assumption].
    apply RuntimeInv_manager;
      auto using SlotInv_cancelHandler, keepsOrigin_cancelHandler.
  - (* Request *)
    pose proof (SlotInv_start name (manager r) H1) as Hs.
    pose proof (keepsOrigin_start name (manager r)) as Hk.
    destruct (withRequestToken_start name (manager r)) as [m' h]. cbn [fst] in *.
    split; cbn; [assumption| |assumption].
    intros k due Hin. destruct (H2 k due Hin) as (src & Hl & Ho).
    destruct (Hk k src Hl) as (src' & Hl' & Ho'). exists src'. split; congruence.
  - (* Settle *)
    destruct (requestName h (pending r)) as [name|]; [|assumption].
    pose proof (SlotInv_resume name h out (manager r) H1) as Hs.
    pose proof (keepsOrigin_resume name h out (manager r)) as Hk.
    destruct (withRequestToken_resume name h out (manager r)) as [[m' effs] res].
    cbn [fst] in *. split; cbn; [assumption| |assumption].
    intros k due Hin. destruct (H2 k due Hin) as (src & Hl & Ho).
    destruct (Hk k src Hl) as (src' & Hl' & Ho'). exists src'. split; congruence.
  - (* ConfigurationChanged *)
    case_bool_decide; [|assumption]. split; cbn; assumption.
  - (* WillSave *)
    case_bool_decide; [|assumption]. unfold willSave_start.
    destruct (includes _ _ || existsb _ _); [|assumption].
    destruct (negb hasFormatProvider); [split; cbn; assumption|].
    destruct options; [|assumption].
    split; cbn [manager timers listening disposables]; [| |assumption].
    + now apply SlotInv_saveSource.
    + intros k due Hin. apply in_app_or in Hin as [Hin|[[= <- <-]|[]]].
      * destruct (H2 k due Hin) as (src & Hl & Ho). exists src. split; [|assumption].
        now apply lookup_app_l_Some.
      * exists saveSource. split; [|reflexivity]. cbn. apply list_lookup_middle. reflexivity.
  - (* Timeout *)
    unfold timeout. destruct (List.find (timerOf h) (timers r)) as [[k due]|] eqn:E;
      [|assumption].
    destruct (due <=? now); [|assumption].
    apply find_some in E as [Hin Hk]. unfold timerOf in Hk. cbn in Hk.
    apply bool_decide_eq_true in Hk. subst k.
    split; cbn [manager timers listening disposables]; [| |assumption].
    + apply SlotInv_cancel_save; eauto.
    + intros k due' Hin'. apply filter_In in Hin' as [Hin' _].
      destruct (H2 k due' Hin') as (src & Hl & Ho).
      destruct (keepsOrigin_cancel h (manager r) k src Hl) as (src' & Hl' & Ho').
      exists src'. split; congruence.
  - (* SettleSave *)
    unfold willSave_resume. destruct (existsb _ _); [|assumption].
    split; cbn [manager timers listening disposables]; [assumption| |assumption].
    intros k due Hin. apply H2 with due.
    destruct out; [now apply filter_In in Hin as [Hin _]|assumption].
  - (* Dispose *)
    split; cbn [manager timers listening disposables disposeHandler disposeAll];
      [assumption|assumption|].
    intros hd Hin Hne. apply list_elem_of_filter in Hin as [Hnot Hin].
    exfalso. apply Hnot. now apply H3.
Qed.

Lemma run_app (tr tr' : list Label) (r : Runtime) :
  run (tr ++ tr') r = run tr' (run tr r).
Proof. apply fold_left_app. Qed.

Lemma RuntimeInv_run (tr : list Label) (r : Runtime) :
  RuntimeInv r -> RuntimeInv (run tr r).
Proof.
  revert r. induction tr as [|l tr IH]; intros r Hr; [exact Hr|].
  cbn. apply IH. now apply RuntimeInv_step.
Qed.

Lemma step_Request_manager (name : jsstring) (r : Runtime) :
  manager (step (Request name) r) = fst (withRequestToken_start name (manager r)).
Proof. cbn [step]. now destruct (withRequestToken_start name (manager r)). Qed.

Lemma step_Settle_manager (h : nat) (out : Settled (option (list TextEdit))) (r : Runtime) :
  manager (step (Settle h out) r) = manager r
  \/ exists name, manager (step (Settle h out) r)
                  = fst (fst (withRequestToken_resume name h out (manager r))).
Proof.
  cbn [step]. destruct (requestName h (pending r)) as [name|]; [|now left].
  right. exists name.
  now destruct (withRequestToken_resume name h out (manager r)) as [[m' effs] res].
Qed.

(** A new request cancels and disposes the source it finds in the slot and
    takes the slot. *)
Lemma start_supersedes (name : jsstring) (h : nat) (m : Manager) :
  SlotInv m -> requestTokenSource m = Some h ->
  (exists src', sources (fst (withRequestToken_start name m)) !! h = Some src'
                /\ cancelled src' = true /\ disposals src' = 1%nat)
  /\ requestTokenSource (fst (withRequestToken_start name m)) = Some (length (sources m))
  /\ h <> length (sources m).
Proof.
  intros [H1 _ _] Hs. destruct (H1 h Hs) as (s & Hl & _ & Hd & _).
  assert (Hlt : (h < length (sources m))%nat) by now apply lookup_lt_Some in Hl.
  split; [|split; [apply withRequestToken_start_token | lia]].
  rewrite withRequestToken_start_lookup, decide_False, decide_True, Hl by (auto; lia).
  eexists. split; [reflexivity|]. cbn.
  destruct (cancelOnce_fields s) as (Hc & -> & _). split; [assumption|]. now rewrite Hd.
Qed.

(** C1, amended: at every point of any sequence of steps, at most one
    source created by [withRequestToken] (on-type, document and range
    format) is neither cancelled nor disposed, and it is the one in the
    slot; a new request through [withRequestToken] first cancels and
    disposes the source it finds in the slot and then takes the slot.  The
    save-time format has a source of its own, which is never in the slot
    and which a new request leaves as it is. *)
Theorem one_live_source_in_slot :
  forall (prefs : FormatPreferences) (tr : list Label),
    (forall h src,
        sources (manager (run tr (construct prefs))) !! h = Some src ->
        origin src = FromWithRequestToken ->
        cancelled src = false -> disposals src = 0%nat ->
        requestTokenSource (manager (run tr (construct prefs))) = Some h)
    /\ (forall h name,
          requestTokenSource (manager (run tr (construct prefs))) = Some h ->
          (exists src',
              sources (manager (step (Request name) (run tr (construct prefs)))) !! h
              = Some src'
              /\ cancelled src' = true /\ disposals src' = 1%nat)
          /\ requestTokenSource (manager (step (Request name) (run tr (construct prefs))))
             = Some (length (sources (manager (run tr (construct prefs)))))
          /\ h <> length (sources (manager (run tr (construct prefs)))))
    /\ (forall h src name,
          sources (manager (run tr (construct prefs))) !! h = Some src ->
          origin src = FromWillSave ->
          requestTokenSource (manager (run tr (construct prefs))) <> Some h
          /\ sources (manager (step (Request name) (run tr (construct prefs)))) !! h
             = Some src).
Proof.
  intros prefs tr.
  pose proof (RuntimeInv_run tr _ (RuntimeInv_construct prefs)) as [Hs _ _].
  set (r := run tr (construct prefs)) in *. split; [|split].
  - intros h src Hl Ho Hc Hd.
    destruct (decide (requestTokenSource (manager r) = Some h)) as [|Hn]; [assumption|].
    destruct (outside_slot _ Hs h src Hl Ho Hn) as [?|?]; [congruence|lia].
  - intros h name Hslot. rewrite step_Request_manager. now apply start_supersedes.
  - intros h src name Hl Ho.
    assert (Hn : requestTokenSource (manager r) <> Some h).
    { intros Hslot. destruct (slot_source _ Hs h Hslot) as (s & Hl' & _ & _ & Ho').
      congruence. }
    split; [assumption|].
    rewrite step_Request_manager, withRequestToken_start_lookup.
    rewrite decide_False by (apply lookup_lt_Some in Hl; lia).
    now rewrite decide_False.
Qed.

(** C1, as stated, fails: an on-type request is in flight when the document
    is saved; the save-time format starts its own request without
    cancelling the first: both are in flight and neither token is
    cancelled. *)
Lemma save_and_format_both_in_flight :
  liveRequests
    (run [Request onTypeFormat; WillSave (js "c") true (Resolved exampleOptions) 0]
       (construct examplePreferences))
  = [PendingRequest 0 onTypeFormat; PendingSave 1].
Proof. reflexivity. Qed.

(** The continuation of a superseded request releases the slot of its
    successor (lines 172-175 dispose whatever the slot holds); the next
    request then finds the slot empty and cancels nothing: the second and
    the third request are both in flight with tokens that are not
    cancelled. *)
Lemma stale_continuation_releases_successor :
  liveRequests
    (run [Request format; Request format; Settle 0 (Resolved None); Request format]
       (construct examplePreferences))
  = [PendingRequest 1 format; PendingRequest 2 format].
Proof. reflexivity. Qed.



Lemma isCancellationRequested_true (h : nat) (m : Manager) :
  isCancellationRequested h m = true
  <-> exists src, sources m !! h = Some src /\ cancelled src = true.
Proof.
  unfold isCancellationRequested. destruct (sources m !! h) as [s|].
  - split; [eauto|]. now intros (src & [= <-] & Hc).
  - split; [discriminate|]. now intros (src & Hl & _).
Qed.

(** A cancelled token stays cancelled. *)
Lemma step_keeps_cancelled (l : Label) (r : Runtime) (h : nat) :
  isCancellationRequested h (manager r) = true ->
  isCancellationRequested h (manager (step l r)) = true.
Proof.
  intros Hc. pose proof Hc as Hc'.
  apply isCancellationRequested_true in Hc' as (src & Hl & Hsrc).
  assert (Hlt : (h < length (sources (manager r)))%nat) by now apply lookup_lt_Some in Hl.
  destruct l.
  - cbn [step]. case_bool_decide; [|exact Hc]. cbn [set_manager manager].
    apply isCancellationRequested_true. rewrite cancelHandler_lookup, Hl.
    destruct (decide (requestTokenSource (manager r) = Some h)); [|eauto].
    eexists. split; [reflexivity|]. apply cancelOnce_fields.
  - rewrite step_Request_manager. apply isCancellationRequested_true.
    rewrite withRequestToken_start_lookup, decide_False, Hl by lia.
    destruct (decide (requestTokenSource (manager r) = Some h)); [|eauto].
    eexists. split; [reflexivity|]. cbn. apply cancelOnce_fields.
  - destruct (step_Settle_manager h0 out r) as [->|[name ->]]; [exact Hc|].
    destruct (withRequestToken_resume_manager name h0 out (manager r)) as [i ->].
    change (isCancellationRequested h (set_status i (releaseSlot (manager r))))
      with (isCancellationRequested h (releaseSlot (manager r))).
    now rewrite releaseSlot_isCancellationRequested.
  - cbn [step]. case_bool_decide; exact Hc.
  - cbn [step]. case_bool_decide; [|exact Hc]. unfold willSave_start.
    destruct (includes _ _ || existsb _ _); [|exact Hc].
    destruct (negb hasFormatProvider); [exact Hc|].
    destruct options; [|exact Hc]. apply isCancellationRequested_true.
    exists src. split; [|assumption]. cbn. now apply lookup_app_l_Some.
  - cbn [step]. unfold timeout.
    destruct (List.find (timerOf h0) (timers r)) as [[k due]|]; [|exact Hc].
    destruct (due <=? now); [|exact Hc]. cbn [manager].
    apply isCancellationRequested_true. rewrite cancel_lookup, Hl.
    destruct (decide (h0 = h)); [|eauto].
    eexists. split; [reflexivity|]. apply cancelOnce_fields.
  - cbn [step]. unfold willSave_resume. destruct (existsb _ _); exact Hc.
  - exact Hc.
Qed.

Lemma run_keeps_cancelled (tr : list Label) (r : Runtime) (h : nat) :
  isCancellationRequested h (manager r) = true ->
  isCancellationRequested h (manager (run tr r)) = true.
Proof.
  revert r. induction tr as [|l tr IH]; intros r Hc; [exact Hc|].
  cbn. apply IH. now apply step_keeps_cancelled.
Qed.


(** The callers of [withRequestToken] start their request as the step
    [Request] does. *)
Lemma callers_start_a_request (isWord : jsstring -> bool) (prefs : FormatPreferences)
    (w : Workspace) (c : Collaborators) (ch mode : jsstring) (bufnr : Z) (r : Runtime) :
  (forall m' h doc,
      tryFormatOnType_start isWord prefs w ch bufnr (manager r) = Some (m', h, doc) ->
      m' = manager (step (Request onTypeFormat) r))
  /\ (forall m' h options,
        documentFormat_start c (manager r) = (m', inr (h, options)) ->
        m' = manager (step (Request format) r))
  /\ (forall m' h rg options,
        documentRangeFormat_start c mode (manager r) = (m', inr (h, rg, options)) ->
        m' = manager (step (Request format) r)).
Proof.
  rewrite !step_Request_manager. split; [|split].
  - intros m' h doc. unfold tryFormatOnType_start.
    destruct (tryFormatOnType_guards isWord prefs w ch bufnr); [|discriminate].
    destruct (withRequestToken_start onTypeFormat (manager r)). now intros [= <- _ _].
  - intros m' h options. unfold documentFormat_start.
    destruct (withRequestToken_start format (manager r)).
    repeat (match goal with
            | |- context [match ?x with _ => _ end] => destruct x
            end; try discriminate).
    now intros [= <- _ _].
  - intros m' h rg options. unfold documentRangeFormat_start.
    destruct (withRequestToken_start format (manager r)).
    repeat (match goal with
            | |- context [match ?x with _ => _ end] => destruct x
            end; try discriminate).
    all: now intros [= <- _ _ _].
Qed.



(** C8, amended: after [dispose()], every subscription that was made with
    the disposables array is released: the handlers of configuration
    changes, will-save, the cancelling events, Enter, InsertCharPre,
    TextChangedI and InsertLeave are no longer called (a configuration
    change, a will-save and every editor event but CursorMoved leave the
    handler as it is), and the array is empty.  [dispose()] does not touch
    the request slot: a request in flight stays in flight and its source
    is neither cancelled nor disposed by it. *)
Theorem dispose_releases_disposables :
  forall (prefs : FormatPreferences) (tr : list Label),
    (forall hd, hd <> HCursorMoved ->
        hd ∉ listening (step Dispose (run tr (construct prefs))))
    /\ disposables (step Dispose (run tr (construct prefs))) = []
    /\ step Cancelling (step Dispose (run tr (construct prefs)))
       = step Dispose (run tr (construct prefs))
    /\ (forall p, step (ConfigurationChanged p) (step Dispose (run tr (construct prefs)))
                  = step Dispose (run tr (construct prefs)))
    /\ (forall languageId hasProvider options now,
          step (WillSave languageId hasProvider options now)
            (step Dispose (run tr (construct prefs)))
          = step Dispose (run tr (construct prefs)))
    /\ (forall isWord w e t,
          (forall bufnr, e <> CursorMoved bufnr) ->
          deliver isWord w e (step Dispose (run tr (construct prefs)), t)
          = (step Dispose (run tr (construct prefs)), t))
    /\ manager (step Dispose (run tr (construct prefs))) = manager (run tr (construct prefs))
    /\ pending (step Dispose (run tr (construct prefs))) = pending (run tr (construct prefs)).
Proof.
  intros prefs tr.
  pose proof (RuntimeInv_run tr _ (RuntimeInv_construct prefs)) as [_ _ Hl].
  set (r := run tr (construct prefs)) in *.
  assert (Hgone : forall hd, hd <> HCursorMoved -> hd ∉ listening (step Dispose r)).
  { intros hd Hne Hin. cbn in Hin. apply list_elem_of_filter in Hin as [Hnot Hin].
    apply Hnot. now apply Hl. }
  assert (Hcancel : step Cancelling (step Dispose r) = step Dispose r).
  { cbn [step]. rewrite bool_decide_eq_false_2; [reflexivity|]. now apply Hgone. }
  split; [exact Hgone|]. split; [reflexivity|].
  split; [exact Hcancel|]. split; [|split; [|split; [|split; reflexivity]]].
  - intros p. cbn [step]. rewrite bool_decide_eq_false_2; [reflexivity|]. now apply Hgone.
  - intros. cbn [step]. rewrite bool_decide_eq_false_2; [reflexivity|]. now apply Hgone.
  - intros isWord w e t He. unfold deliver, stepsOf. cbn [fst snd].
    assert (Hfirst : run (if cancels e then [Cancelling] else []) (step Dispose r)
                     = step Dispose r).
    { destruct (cancels e); [exact Hcancel|reflexivity]. }
    rewrite run_app, Hfirst.
    assert (Hhandle : handle isWord w e (step Dispose r) t = (t, [])).
    { destruct e; cbn [handle]; try reflexivity;
        try (rewrite bool_decide_eq_false_2; [reflexivity|]; now apply Hgone).
      now destruct (He bufnr). }
    now rewrite Hhandle.
Qed.

(** C8, as stated, fails: [documentFormat] starts a request and the handler
    is disposed while the provider call is pending.  The request is still in
    flight, its source is still in the slot, not cancelled and not
    disposed. *)
Lemma dispose_leaves_request_in_flight :
  liveRequests (run [Request format; Dispose] (construct examplePreferences))
  = [PendingRequest 0 format]
  /\ requestTokenSource (manager (run [Request format; Dispose]
                                    (construct examplePreferences))) = Some 0%nat
  /\ sources (manager (run [Request format; Dispose] (construct examplePreferences)))
     = [mkTokenSource false 0 (Some format) FromWithRequestToken].
Proof. repeat split. Qed.

(** The subscription of line 128 is made without the disposables array:
    after [dispose()] the bus still calls the CursorMoved handler.  Insert
    mode is left in buffer 1, the handler is disposed, the cursor moves in
    buffer 1: the handler starts an on-type request. *)
Lemma cursor_moved_handler_survives_dispose :
  listening (step Dispose (construct examplePreferences)) = [HCursorMoved]
  /\ pending
       (fst (deliver exampleIsWord exampleWorkspace (CursorMoved 1)
               (step Dispose
                  (fst (deliver exampleIsWord exampleWorkspace (InsertLeave 1)
                          (construct examplePreferences, mkTiming None None None))),
                snd (deliver exampleIsWord exampleWorkspace (InsertLeave 1)
                       (construct examplePreferences, mkTiming None None None)))))
     = [PendingRequest 0 onTypeFormat].
Proof. split; reflexivity. Qed.

(** ** The save-time timer *)

Lemma find_filter_none {A} (p : A -> bool) (l : list A) :
  List.find p (List.filter (fun x => negb (p x)) l) = None.
Proof.
  induction l as [|x l IH]; [reflexivity|]. cbn.
  destruct (p x) eqn:E; cbn; [exact IH|]. now rewrite E.
Qed.

Lemma find_app_none {A} (p : A -> bool) (l : list A) (x : A) :
  (forall y, In y l -> p y = false) -> p x = true -> List.find p (l ++ [x]) = Some x.
Proof.
  intros Hl Hx. induction l as [|y l IH]; cbn; [now rewrite Hx|].
  rewrite (Hl y) by now left. apply IH. intros z Hz. apply Hl. now right.
Qed.

(** No timer is armed for a source that does not exist yet. *)
Lemma fresh_timer (r : Runtime) (due : Z) :
  RuntimeInv r ->
  List.find (timerOf (length (sources (manager r))))
    (timers r ++ [(length (sources (manager r)), due)])
  = Some (length (sources (manager r)), due).
Proof.
  intros [_ Ht _]. apply find_app_none.
  - intros [k d] Hin. destruct (Ht k d Hin) as (src & Hl & _).
    apply lookup_lt_Some in Hl. unfold timerOf. cbn.
    apply bool_decide_eq_false_2. lia.
  - unfold timerOf. cbn. now apply bool_decide_eq_true_2.
Qed.

(** C9, amended: the save-time format arms a timer due 1000 ms after the
    provider is called.  If the provider has not answered when the timer
    runs, the token of the save request is cancelled; the wait-until is
    still pending then, and it completes when the provider answers, with
    whatever the provider returns.  If the provider answers first, its
    result is returned and the timer is cleared.  Before it is due the
    timer does nothing.  Starting, settling or cancelling a request of
    [withRequestToken] arms no timer. *)
Theorem save_timer_cancels_token :
  forall (prefs : FormatPreferences) (tr : list Label) (languageId : jsstring)
         (options : FormatOptions) (now : Z),
    HWillSave ∈ listening (run tr (construct prefs)) ->
    includes (formatOnSaveFiletypes (preferences (run tr (construct prefs)))) languageId
    || existsb (fun item => jsstring_eqb item (js "*"))
         (formatOnSaveFiletypes (preferences (run tr (construct prefs)))) = true ->
    let r := run tr (construct prefs) in
    let h := length (sources (manager r)) in
    let r1 := step (WillSave languageId true (Resolved options) now) r in
    (timers r1 = timers r ++ [(h, now + 1000)]
     /\ In (PendingSave h) (pending r1)
     /\ isCancellationRequested h (manager r1) = false)
    /\ (forall t, t < now + 1000 -> step (Timeout t h) r1 = r1)
    /\ (forall t, now + 1000 <= t ->
          isCancellationRequested h (manager (step (Timeout t h) r1)) = true
          /\ In (PendingSave h) (pending (step (Timeout t h) r1))
          /\ waitUntil (step (Timeout t h) r1) = waitUntil r
          /\ forall v, waitUntil (step (SettleSave h (Resolved v)) (step (Timeout t h) r1))
                       = waitUntil r ++ [(h, Resolved v)])
    /\ (forall v t,
          waitUntil (step (SettleSave h (Resolved v)) r1) = waitUntil r ++ [(h, Resolved v)]
          /\ step (Timeout t h) (step (SettleSave h (Resolved v)) r1)
             = step (SettleSave h (Resolved v)) r1)
    /\ (forall name, timers (step (Request name) r) = timers r)
    /\ (forall k out, timers (step (Settle k out) r) = timers r)
    /\ timers (step Cancelling r) = timers r.
Proof.
  intros prefs tr languageId options now Hlisten Hft r h r1.
  pose proof (RuntimeInv_run tr _ (RuntimeInv_construct prefs)) as Hinv.
  fold r in Hinv, Hlisten, Hft.
  assert (E1 : r1 = mkRuntime
                 (set_sources (fun l => l ++ [saveSource]) (manager r)) (preferences r)
                 (pending r ++ [PendingSave h]) (timers r ++ [(h, now + 1000)])
                 (listening r) (disposables r) (returned r) (waitUntil r) (effects r)).
  { subst r1. cbn [step]. rewrite bool_decide_eq_true_2 by assumption.
    unfold willSave_start. now rewrite Hft. }
  assert (Hpend : In (PendingSave h) (pending r ++ [PendingSave h]))
    by (apply in_or_app; right; now left).
  assert (Hex : existsb (isPendingSave h) (pending r ++ [PendingSave h]) = true).
  { apply existsb_exists. exists (PendingSave h). split; [assumption|].
    cbn. now apply bool_decide_eq_true_2. }
  assert (Hfind : List.find (timerOf h) (timers r ++ [(h, now + 1000)])
                  = Some (h, now + 1000)) by now apply fresh_timer.
  assert (Hlook : (sources (manager r) ++ [saveSource]) !! h = Some saveSource)
    by now apply list_lookup_middle.
  rewrite E1. split; [|split; [|split; [|split; [|split; [|split]]]]].
  - split; [reflexivity|]. split; [assumption|].
    unfold isCancellationRequested. cbn [manager set_sources sources]. now rewrite Hlook.
  - intros t Ht. cbn [step]. unfold timeout. cbn [timers]. rewrite Hfind.
    destruct (Z.leb_spec (now + 1000) t); [lia|reflexivity].
  - intros t Ht. cbn [step]. unfold timeout. cbn [timers]. rewrite Hfind.
    destruct (Z.leb_spec (now + 1000) t); [|lia].
    cbn [manager pending waitUntil]. split; [|split; [assumption|split; [reflexivity|]]].
    + unfold isCancellationRequested. rewrite cancel_lookup, decide_True by reflexivity.
      cbn [set_sources sources]. now rewrite Hlook.
    + intros v. unfold willSave_resume. cbn [pending]. now rewrite Hex.
  - intros v t. cbn [step]. unfold willSave_resume. cbn [pending]. rewrite Hex.
    split; [reflexivity|]. unfold timeout. cbn [timers]. now rewrite find_filter_none.
  - intros name. cbn [step]. now destruct (withRequestToken_start name (manager r)).
  - intros k out. cbn [step]. destruct (requestName k (pending r)); [|reflexivity].
    now destruct (withRequestToken_resume _ k out (manager r)) as [[? ?] ?].
  - cbn [step]. now case_bool_decide.
Qed.

(** C9, as stated, fails: a document is saved at time 0, the timer runs at
    time 1000 and cancels the token; the wait-until is still pending then,
    and when the provider answers with an edit the wait-until completes with
    that edit. *)
Lemma save_returns_edits_after_timeout :
  waitUntil (run [WillSave (js "c") true (Resolved exampleOptions) 0; Timeout 1000 0]
               (construct examplePreferences)) = []
  /\ isCancellationRequested 0
       (manager (run [WillSave (js "c") true (Resolved exampleOptions) 0; Timeout 1000 0]
                   (construct examplePreferences))) = true
  /\ waitUntil (run [WillSave (js "c") true (Resolved exampleOptions) 0; Timeout 1000 0;
                     SettleSave 0 (Resolved (Some [exampleEdit]))]
                  (construct examplePreferences))
     = [(0%nat, Resolved (Some [exampleEdit]))].
Proof. repeat split. Qed.




Lemma on_type_cursor_displacement_witness :
  snd (fst (tryFormatOnType_resume exampleChanged exampleCollaborators exampleDocument
              [LF] false 0 requestInFlight))
  = [ApplyEdits [exampleEdit]; MoveTo (mkPosition 5 0)]
  /\ cursorAfter (fun _ cur => cur)
       (snd (fst (tryFormatOnType_resume exampleChanged exampleCollaborators
                    exampleDocument [LF] false 0 requestInFlight)))
       (mkPosition 3 5)
     = mkPosition 5 0.
Proof.
  exact (on_type_cursor_displacement exampleChanged (fun _ cur => cur)
           exampleCollaborators exampleDocument [LF] false 0 requestInFlight
           (mkPosition 3 5) (mkPosition 3 5) exampleEdit []
           eq_refl eq_refl eq_refl eq_refl eq_refl eq_refl).
Defined.

Lemma text_changed_debounce_witness :
  snd (onTextChangedI exampleIsWord examplePreferences exampleWorkspace 1200 1
         (js "  foo(") (mkTiming None (Some 1000) None))
  = [mkOnTypeCall [40%N] 1 false]
  /\ snd (onTextChangedI exampleIsWord examplePreferences exampleWorkspace 1301 1
            (js "  foo(") (mkTiming None (Some 1000) None))
     = [].
Proof.
  split.
  - destruct (text_changed_debounce exampleIsWord examplePreferences exampleWorkspace
                1200 1 (js "  foo(") (mkTiming None (Some 1000) None) exampleDocument 40%N
                eq_refl eq_refl eq_refl eq_refl) as (H & _ & _).
    destruct (H 1000 eq_refl) as (Hcall & _); [discriminate|lia|reflexivity|reflexivity|].
    exact Hcall.
  - destruct (text_changed_debounce exampleIsWord examplePreferences exampleWorkspace
                1301 1 (js "  foo(") (mkTiming None (Some 1000) None) exampleDocument 40%N
                eq_refl eq_refl eq_refl eq_refl) as (_ & H & _).
    apply (H 1000 eq_refl). lia.
Defined.

Lemma save_timer_cancels_token_witness :
  HWillSave ∈ listening (run [] (construct examplePreferences))
  /\ isCancellationRequested 0
       (manager (step (Timeout 1000 0)
                   (step (WillSave (js "c") true (Resolved exampleOptions) 0)
                      (run [] (construct examplePreferences))))) = true.
Proof.
  assert (H : HWillSave ∈ listening (run [] (construct examplePreferences)))
    by (apply (bool_decide_unpack _); reflexivity).
  split; [exact H|].
  destruct (save_timer_cancels_token examplePreferences [] (js "c") exampleOptions 0
              H eq_refl) as (_ & _ & Hdue & _).
  destruct (Hdue 1000) as (Hc & _); [lia|]. exact Hc.
Defined.

Lemma one_live_source_in_slot_witness :
  requestTokenSource
    (manager (run [Request onTypeFormat] (construct examplePreferences))) = Some 0%nat
  /\ exists src',
      sources (manager (step (Request format)
                          (run [Request onTypeFormat] (construct examplePreferences))))
        !! 0%nat = Some src'
      /\ cancelled src' = true /\ disposals src' = 1%nat.
Proof.
  split; [reflexivity|].
  exact (proj1 (proj1 (proj2 (one_live_source_in_slot examplePreferences
                                [Request onTypeFormat]))
                  0%nat format eq_refl)).
Defined.


Lemma enter_helper_fires_on_last_character_witness :
  exists rest,
    fst (onEnter_resume exampleCollaborators true (Resolved tt) (Resolved 2)
           (Some (twoLines 1 (js "  {") (js "  }") (js "c"))))
    = ApplyEdits (fst (bracketEdits 1 (js "  {") (js "  }") (js "c") exampleOptions))
      :: rest.
Proof.
  exact (proj2 (proj2 (enter_helper_fires_on_last_character exampleCollaborators
                         (Resolved tt) (Resolved 2)
                         (Some (twoLines 1 (js "  {") (js "  }") (js "c")))))
           2 (twoLines 1 (js "  {") (js "  }") (js "c")) exampleOptions 123%N 125%N
           eq_refl eq_refl eq_refl eq_refl eq_refl eq_refl eq_refl).
Defined.

Lemma dispose_releases_disposables_witness :
  HCancel ∉ listening (step Dispose (run [Request format] (construct examplePreferences))).
Proof.
  apply (proj1 (dispose_releases_disposables examplePreferences [Request format])).
  discriminate.
Defined.

(** * Further properties of the handler *)

(** ** The guards of tryFormatOnType *)

(** X1: [tryFormatOnType] starts a request exactly when the character is
    not empty and not a word character, on-type formatting is enabled, no
    snippet session owns the buffer, the buffer has an attached document
    that is not a command line, the filetype allow-list is empty or holds
    the document's filetype, and a provider declares the character; the
    request it starts is the one of [withRequestToken] under the name
    'onTypeFormat '. *)
Theorem tryFormatOnType_starts_iff :
  forall (isWord : jsstring -> bool) (prefs : FormatPreferences) (w : Workspace)
         (ch : jsstring) (bufnr : Z) (m : Manager),
    (is_Some (tryFormatOnType_start isWord prefs w ch bufnr m) <->
     ch <> [] /\ isWord ch = false /\ formatOnType prefs = true
     /\ getSession w bufnr = false
     /\ exists doc,
         getDocument w bufnr = Some doc /\ attached doc = true
         /\ isCommandLine doc = false
         /\ (formatOnTypeFiletypes prefs = []
             \/ includes (formatOnTypeFiletypes prefs) (filetype doc) = true)
         /\ hasOnTypeProvider w ch doc = true)
    /\ (forall m' h doc,
          tryFormatOnType_start isWord prefs w ch bufnr m = Some (m', h, doc) ->
          getDocument w bufnr = Some doc
          /\ (m', h) = withRequestToken_start onTypeFormat m).
Proof.
  intros isWord prefs w ch bufnr m.
  assert (Hg : forall doc,
             tryFormatOnType_guards isWord prefs w ch bufnr = Some doc <->
             ch <> [] /\ isWord ch = false /\ formatOnType prefs = true
             /\ getSession w bufnr = false
             /\ getDocument w bufnr = Some doc /\ attached doc = true
             /\ isCommandLine doc = false
             /\ (formatOnTypeFiletypes prefs = []
                 \/ includes (formatOnTypeFiletypes prefs) (filetype doc) = true)
             /\ hasOnTypeProvider w ch doc = true).
  { intros doc. unfold tryFormatOnType_guards.
    case_bool_decide as Hch; cbn [orb].
    { split; [discriminate|]. intros (Hne & _). contradiction. }
    destruct (isWord ch); cbn [orb].
    { split; [discriminate|]. intros (_ & Hw & _). discriminate. }
    destruct (formatOnType prefs); cbn [negb]; cycle 1.
    { split; [discriminate|]. intros (_ & _ & Hf & _). discriminate. }
    destruct (getSession w bufnr).
    { split; [discriminate|]. intros (_ & _ & _ & Hs & _). discriminate. }
    destruct (getDocument w bufnr) as [d|]; cycle 1.
    { split; [discriminate|]. intros (_ & _ & _ & _ & Hd & _). discriminate. }
    destruct (attached d) eqn:Ha; cbn [negb orb]; cycle 1.
    { split; [discriminate|]. intros (_ & _ & _ & _ & [= <-] & Ha' & _). congruence. }
    destruct (isCommandLine d) eqn:Hc.
    { split; [discriminate|]. intros (_ & _ & _ & _ & [= <-] & _ & Hc' & _). congruence. }
    case_bool_decide as Hft; cbn [negb andb].
    - destruct (hasOnTypeProvider w ch d) eqn:Hp; cbn [negb].
      + split; [intros [= <-]; repeat split; auto|]. now intros (_ & _ & _ & _ & ? & _).
      + split; [discriminate|].
        intros (_ & _ & _ & _ & [= <-] & _ & _ & _ & Hp'). congruence.
    - destruct (includes (formatOnTypeFiletypes prefs) (filetype d)) eqn:Hi; cbn [negb].
      + destruct (hasOnTypeProvider w ch d) eqn:Hp; cbn [negb].
        * split; [intros [= <-]; repeat split; auto|]. now intros (_ & _ & _ & _ & ? & _).
        * split; [discriminate|].
          intros (_ & _ & _ & _ & [= <-] & _ & _ & _ & Hp'). congruence.
      + split; [discriminate|].
        intros (_ & _ & _ & _ & [= <-] & _ & _ & [Hl|Hl] & _); congruence. }
  split.
  - unfold tryFormatOnType_start.
    destruct (tryFormatOnType_guards isWord prefs w ch bufnr) as [doc|].
    + destruct (withRequestToken_start onTypeFormat m) as [m' h].
      split; [intros _|eauto].
      destruct (proj1 (Hg doc) eq_refl) as (? & ? & ? & ? & ? & ? & ? & ? & ?).
      repeat split; try assumption. exists doc. repeat split; assumption.
    + split; [intros [x Hx]; discriminate|].
      intros (H1 & H2 & H3 & H4 & doc & H5 & H6 & H7 & H8 & H9).
      assert (Hs : None = Some doc) by (apply Hg; repeat split; assumption).
      discriminate.
  - intros m' h doc. unfold tryFormatOnType_start.
    destruct (tryFormatOnType_guards isWord prefs w ch bufnr) as [d|];
      [|discriminate].
    destruct (proj1 (Hg d) eq_refl) as (_ & _ & _ & _ & Hd & _).
    destruct (withRequestToken_start onTypeFormat m) as [m1 h1].
    intros [= <- <- <-]. now split.
Qed.

(** ** What tryFormatOnType does with failures and blank lines *)



(** X3: in insert-leave mode, when the line under the cursor is blank the
    operation returns nothing before the document is synchronized and
    before the provider is asked: whatever these two would answer,
    [tryFormatOnType] applies nothing, shows no message and returns; if the
    request is not cancelled the only trace is the 'provider not found'
    warning of [withRequestToken]. *)
Theorem insert_leave_skips_blank_line :
  forall (getChangedFromEdits : Position -> list TextEdit -> option Position)
         (c : Collaborators) (doc : Document) (ch : jsstring) (h : nat) (m : Manager)
         (P : Position),
    getCursorPosition c = Resolved P ->
    isBlank (getline doc (line P)) = true ->
    snd (tryFormatOnType_resume getChangedFromEdits c doc ch true h m) = Resolved tt
    /\ snd (fst (tryFormatOnType_resume getChangedFromEdits c doc ch true h m))
       = (if isCancellationRequested h m then []
          else [LogWarn (onTypeFormat ++ js " provider not found!")]).
Proof.
  intros gc c doc ch h m P HP Hblank.
  unfold tryFormatOnType_resume, onTypeOperation. rewrite HP, Hblank. cbn [andb].
  unfold withRequestToken_resume. cbn [caught].
  rewrite releaseSlot_isCancellationRequested.
  destruct (isCancellationRequested h m); split; reflexivity.
Qed.

(** A buffer whose line 3 is made of blanks. *)
Lemma insert_leave_skips_blank_line_witness :
  snd (fst (tryFormatOnType_resume exampleChanged exampleCollaborators
              (twoLines 4 (js "    ") (js "x") (js "c")) [LF] true 0 requestInFlight))
  = [LogWarn (onTypeFormat ++ js " provider not found!")].
Proof.
  exact (proj2 (insert_leave_skips_blank_line exampleChanged exampleCollaborators
                  (twoLines 4 (js "    ") (js "x") (js "c")) [LF] 0 requestInFlight
                  (mkPosition 3 5) eq_refl eq_refl)).
Defined.

(** ** The commands when there is nothing to format *)

(** X4: [documentFormat] returns false and [documentRangeFormat] returns -1
    without starting a request, so without touching the request slot or a
    request in flight and without asking a provider, when there is no
    active document or it is not attached; [documentRangeFormat] does the
    same when a selection mode is given and no range is selected, and when
    no mode is given and the pending count is 0 or the editor is in insert
    or replace mode. *)
Theorem commands_reject_without_request :
  forall (c : Collaborators) (mode : jsstring) (between : Manager -> Manager)
         (m : Manager),
    (workspace_document c = Resolved None
     \/ (exists doc, workspace_document c = Resolved (Some doc) /\ attached doc = false) ->
     documentFormat c between m = (m, [], Resolved false)
     /\ documentRangeFormat c mode between m = (m, [], Resolved (-1)))
    /\ (forall doc,
          workspace_document c = Resolved (Some doc) -> attached doc = true ->
          resolves (synchronizeDocument c) ->
          (mode <> [] -> getSelectedRange c = Resolved None ->
           documentRangeFormat c mode between m = (m, [], Resolved (-1)))
          /\ (mode = [] ->
              forall lnum count mode',
                nvim_eval c = Resolved (lnum, count, mode') ->
                count = 0 \/ mode' = js "i" \/ mode' = js "R" ->
                documentRangeFormat c mode between m = (m, [], Resolved (-1)))).
Proof.
  intros c mode between m. split.
  - intros [Hd|(doc & Hd & Ha)];
      unfold documentFormat, documentFormat_start, documentRangeFormat,
        documentRangeFormat_start; rewrite Hd; [|rewrite Ha]; now split.
  - intros doc Hd Ha [u Hs]. split.
    + intros Hmode Hsel. unfold documentRangeFormat, documentRangeFormat_start.
      rewrite Hd, Ha, Hs. cbn [negb].
      rewrite bool_decide_eq_false_2 by assumption. cbn [negb]. now rewrite Hsel.
    + intros Hmode lnum count mode' Hev Hrej.
      unfold documentRangeFormat, documentRangeFormat_start.
      rewrite Hd, Ha, Hs. cbn [negb].
      rewrite bool_decide_eq_true_2 by assumption. cbn [negb]. rewrite Hev.
      assert (Hb : (count =? 0) || jsstring_eqb mode' (js "i")
                   || jsstring_eqb mode' (js "R") = true).
      { destruct Hrej as [-> | [-> | ->]]; [reflexivity| |].
        - unfold jsstring_eqb. rewrite bool_decide_eq_true_2 by reflexivity.
          now rewrite orb_true_r.
        - unfold jsstring_eqb.
          rewrite (bool_decide_eq_true_2 (js "R" = js "R")) by reflexivity.
          now rewrite orb_true_r. }
      now rewrite Hb.
Qed.

(** The count is 0: the range format of the current line is refused while
    a request is in flight, which stays as it is. *)
Lemma commands_reject_without_request_witness :
  documentRangeFormat noRange [] (fun m => m) requestInFlight
  = (requestInFlight, [], Resolved (-1)).
Proof.
  assert (Hs : resolves (synchronizeDocument noRange)) by (eexists; reflexivity).
  refine (proj2 (proj2 (commands_reject_without_request noRange [] (fun m => m)
                          requestInFlight)
                   exampleDocument eq_refl eq_refl Hs) eq_refl 4 0 (js "n") eq_refl _).
  left. reflexivity.
Defined.

(** ** The insert-leave marker *)

(** X5: when both [formatOnInsertLeave] and [formatOnType] are enabled,
    leaving insert mode in a buffer and then moving the cursor in that
    buffer calls [tryFormatOnType('\n', bufnr, true)] once and clears the
    marker, so that a further cursor move calls nothing; a cursor move in
    another buffer calls nothing and keeps the marker.  When one of the two
    preferences is disabled, leaving insert mode records nothing. *)
Theorem insert_leave_marker :
  forall (prefs : FormatPreferences) (bufnr : Z) (t : Timing),
    (formatOnInsertLeave prefs = true -> formatOnType prefs = true -> bufnr <> 0 ->
     onCursorMoved bufnr (onInsertLeave prefs bufnr t)
     = (mkTiming (changedTs t) (lastInsert t) None, [mkOnTypeCall [LF] bufnr true])
     /\ (forall b,
           snd (onCursorMoved b (fst (onCursorMoved bufnr (onInsertLeave prefs bufnr t))))
           = [])
     /\ (forall other, other <> bufnr ->
           onCursorMoved other (onInsertLeave prefs bufnr t)
           = (onInsertLeave prefs bufnr t, [])))
    /\ (formatOnInsertLeave prefs = false \/ formatOnType prefs = false ->
        onInsertLeave prefs bufnr t = t).
Proof.
  intros prefs bufnr t. split.
  - intros Hl Ht Hb. unfold onInsertLeave. rewrite Hl, Ht. cbn [negb orb].
    assert (E : onCursorMoved bufnr (mkTiming (changedTs t) (lastInsert t) (Some bufnr))
                = (mkTiming (changedTs t) (lastInsert t) None,
                   [mkOnTypeCall [LF] bufnr true])).
    { unfold onCursorMoved. cbn [leaveBufnr truthy changedTs lastInsert].
      destruct (Z.eqb_spec bufnr 0); [contradiction|]. cbn [negb andb].
      now rewrite bool_decide_eq_true_2. }
    rewrite E. split; [reflexivity|]. split; [reflexivity|].
    intros other Hne. unfold onCursorMoved. cbn [leaveBufnr].
    rewrite bool_decide_eq_false_2 by congruence. now rewrite andb_false_r.
  - intros [H|H]; unfold onInsertLeave; rewrite H; [reflexivity|].
    now rewrite orb_true_r.
Qed.

Lemma insert_leave_marker_witness :
  onCursorMoved 7 (onInsertLeave examplePreferences 7 (mkTiming None None None))
  = (mkTiming None None None, [mkOnTypeCall [LF] 7 true])
  /\ onCursorMoved 8 (onInsertLeave examplePreferences 7 (mkTiming None None None))
     = (mkTiming None None (Some 7), []).
Proof.
  destruct (proj1 (insert_leave_marker examplePreferences 7 (mkTiming None None None))
              eq_refl eq_refl) as (H1 & _ & H3); [discriminate|].
  split; [exact H1|]. apply (H3 8). discriminate.
Defined.

(** ** One on-type format per keystroke *)

Lemma onTextChangedI_calls (isWord : jsstring -> bool) (prefs : FormatPreferences)
    (w : Workspace) (now bufnr : Z) (pre : jsstring) (t : Timing) :
  snd (onTextChangedI isWord prefs w now bufnr pre t) = []
  \/ (exists c, snd (onTextChangedI isWord prefs w now bufnr pre t) = [c])
     /\ lastInsert (fst (onTextChangedI isWord prefs w now bufnr pre t)) = None.
Proof.
  unfold onTextChangedI.
  destruct (negb _ || _); [now left|].
  destruct (getDocument w bufnr) as [doc|]; [|now left].
  destruct (isCommandLine doc || negb (attached doc)); [now left|].
  destruct (str_at pre (str_length pre - 1)) as [p|]; [|now left].
  destruct (formatOnType prefs && negb (isWord [p])); [|now left].
  right. split; [eauto|reflexivity].
Qed.

Lemma onTextChangedI_keeps_unrecorded (isWord : jsstring -> bool)
    (prefs : FormatPreferences) (w : Workspace) (now bufnr : Z) (pre : jsstring)
    (t : Timing) :
  lastInsert t = None ->
  lastInsert (fst (onTextChangedI isWord prefs w now bufnr pre t)) = None.
Proof. intros H. unfold onTextChangedI. cbn. now rewrite H. Qed.

Lemma textChanges_unrecorded (isWord : jsstring -> bool) (l : list TextChange)
    (t : Timing) :
  lastInsert t = None -> snd (textChanges isWord l t) = [].
Proof.
  revert t. induction l as [|x l IH]; intros t Ht; [reflexivity|]. cbn [textChanges].
  pose proof (onTextChangedI_unrecorded isWord (tc_prefs x) (tc_workspace x) (tc_now x)
                (tc_bufnr x) (tc_pre x) t Ht) as H1.
  pose proof (onTextChangedI_keeps_unrecorded isWord (tc_prefs x) (tc_workspace x)
                (tc_now x) (tc_bufnr x) (tc_pre x) t Ht) as H2.
  destruct (onTextChangedI _ _ _ _ _ _ t) as [t1 calls]. cbn [fst snd] in *. subst calls.
  specialize (IH t1 H2). destruct (textChanges isWord l t1) as [t2 calls']. exact IH.
Qed.

(** X6: whatever text-change events follow a keystroke (any number, at any
    times, for any buffers and texts), together they call
    [tryFormatOnType] at most once until the next keystroke is recorded;
    with no keystroke recorded they call it never. *)
Theorem one_format_per_keystroke :
  forall (isWord : jsstring -> bool) (l : list TextChange) (t : Timing) (now : Z),
    (length (snd (textChanges isWord l (onInsertCharPre now t))) <= 1)%nat
    /\ snd (textChanges isWord l
              (mkTiming (changedTs t) None (leaveBufnr t))) = [].
Proof.
  intros isWord l t now. split; [|now apply textChanges_unrecorded].
  generalize (onInsertCharPre now t). clear t now.
  induction l as [|x l IH]; intros t; [cbn; lia|]. cbn [textChanges].
  pose proof (onTextChangedI_calls isWord (tc_prefs x) (tc_workspace x) (tc_now x)
                (tc_bufnr x) (tc_pre x) t) as Hc.
  destruct (onTextChangedI _ _ _ _ _ _ t) as [t1 calls]. cbn [fst snd] in Hc.
  destruct Hc as [->|[[c ->] Hnone]].
  - specialize (IH t1). now destruct (textChanges isWord l t1) as [t2 calls'].
  - pose proof (textChanges_unrecorded isWord l t1 Hnone) as Hrest.
    destruct (textChanges isWord l t1) as [t2 calls']. cbn [snd] in *. subst calls'.
    cbn. lia.
Qed.

(** ** The edits of the bracket-enter helper *)

Lemma str_length_app (a b : jsstring) : str_length (a ++ b) = str_length a + str_length b.
Proof. unfold str_length. rewrite length_app. lia. Qed.

(** X7: the batch of the bracket-enter helper ends with an insertion at the
    end of the previous line of a newline followed by the new line's
    content, and the cursor is sent to the end of that content on the
    current line; the content is as wide as the previous line's
    indentation plus one indent unit ([tabSize] spaces or one tab), plus
    the two characters of the continuation marker for the vim filetype. *)
Theorem bracket_enter_cursor_at_end_of_inserted_line :
  forall (ln : Z) (pre curr ft : jsstring) (opts : FormatOptions),
  exists content,
    last (fst (bracketEdits ln pre curr ft opts))
    = Some (mkTextEdit (mkRange (mkPosition (ln - 1) (str_length pre))
                                (mkPosition (ln - 1) (str_length pre)))
              (LF :: content))
    /\ snd (bracketEdits ln pre curr ft opts) = mkPosition ln (str_length content)
    /\ str_length content
       = str_length (leadingSpace pre) + indentWidth opts
         + (if jsstring_eqb ft vim then 2 else 0).
Proof.
  intros ln pre curr ft opts.
  exists (leadingSpace pre
          ++ (if insertSpaces opts then repeatSpace (tabSize opts) else [TAB])
          ++ (if jsstring_eqb ft vim then js "\ " else [])).
  unfold bracketEdits. cbn [fst snd]. rewrite last_snoc. split; [|split].
  - f_equal. f_equal.
    destruct (jsstring_eqb ft vim); [rewrite <- !app_assoc | rewrite app_nil_r];
      reflexivity.
  - f_equal. destruct (jsstring_eqb ft vim), (insertSpaces opts);
      rewrite !str_length_app;
      change (str_length [LF]) with 1; change (str_length []) with 0;
      generalize (str_length (leadingSpace pre)), (str_length (repeatSpace (tabSize opts))),
        (str_length [TAB]), (str_length (js "\ ")); lia.
  - unfold indentWidth. destruct (jsstring_eqb ft vim), (insertSpaces opts);
      rewrite !str_length_app; unfold repeatSpace, str_length at 2;
      rewrite ?length_replicate;
      change (str_length (js "\ ")) with 2; change (str_length []) with 0;
      cbn [length]; lia.
Qed.

Lemma takeWhile_all {A} (p : A -> bool) (l : list A) : forallb p (takeWhile p l) = true.
Proof.
  induction l as [|x l IH]; [reflexivity|]. cbn.
  destruct (p x) eqn:E; [|reflexivity]. cbn. now rewrite E.
Qed.

Lemma drop_takeWhile {A} (p : A -> bool) (l : list A) :
  drop (length (takeWhile p l)) l = dropWhile p l.
Proof.
  induction l as [|x l IH]; [reflexivity|]. cbn.
  destruct (p x); [exact IH|reflexivity].
Qed.

Lemma dropWhile_idem {A} (p : A -> bool) (l : list A) :
  dropWhile p (dropWhile p l) = dropWhile p l /\ takeWhile p (dropWhile p l) = [].
Proof.
  induction l as [|x l IH]; [now split|]. cbn.
  destruct (p x) eqn:E; [exact IH|]. cbn. now rewrite E.
Qed.

Lemma takeWhile_app_all {A} (p : A -> bool) (a b : list A) :
  forallb p a = true ->
  takeWhile p (a ++ b) = a ++ takeWhile p b /\ dropWhile p (a ++ b) = dropWhile p b.
Proof.
  induction a as [|x a IH]; [now split|]. cbn.
  intros H. apply andb_true_iff in H as [Hx Ha]. rewrite Hx.
  destruct (IH Ha) as [-> ->]. now split.
Qed.

(** X8: for a filetype other than vim, when the current line's leading
    white space differs from the previous line's, the batch has two edits:
    the first replaces exactly the leading white space of the current line
    by the previous line's, so that the edited current line has the
    previous line's indentation and keeps its text; the second is the
    insertion at the end of the previous line.  When the two indentations
    are equal the batch is that insertion alone. *)
Theorem bracket_enter_reindents_current_line :
  forall (ln : Z) (pre curr ft : jsstring) (opts : FormatOptions),
    jsstring_eqb ft vim = false ->
    (leadingSpace pre <> leadingSpace curr ->
     exists e insertion,
       fst (bracketEdits ln pre curr ft opts) = [e; insertion]
       /\ range e = mkRange (mkPosition ln 0)
                      (mkPosition ln (str_length (leadingSpace curr)))
       /\ leadingSpace (replaceInLine curr 0 (str_length (leadingSpace curr)) (newText e))
          = leadingSpace pre
       /\ dropWhile isWhiteSpace
            (replaceInLine curr 0 (str_length (leadingSpace curr)) (newText e))
          = dropWhile isWhiteSpace curr)
    /\ (leadingSpace pre = leadingSpace curr ->
        exists insertion, fst (bracketEdits ln pre curr ft opts) = [insertion]).
Proof.
  intros ln pre curr ft opts Hvim. unfold bracketEdits. cbn [fst]. rewrite Hvim.
  unfold jsstring_eqb. split.
  - intros Hne. rewrite bool_decide_eq_false_2 by assumption. cbn [negb app].
    eexists _, _. split; [reflexivity|]. cbn [range newText]. split; [reflexivity|].
    assert (Hrep : replaceInLine curr 0 (str_length (leadingSpace curr)) (leadingSpace pre)
                   = leadingSpace pre ++ dropWhile isWhiteSpace curr).
    { unfold replaceInLine, str_length. rewrite Nat2Z.id. cbn [Z.to_nat take app].
      unfold leadingSpace. now rewrite drop_takeWhile. }
    rewrite Hrep.
    destruct (takeWhile_app_all isWhiteSpace (leadingSpace pre)
                (dropWhile isWhiteSpace curr) (takeWhile_all _ pre)) as [Ht Hd].
    destruct (dropWhile_idem isWhiteSpace curr) as [Hdd Htd].
    unfold leadingSpace at 1. rewrite Ht, Hd, Htd, Hdd, app_nil_r. now split.
  - intros Heq. rewrite bool_decide_eq_true_2 by assumption. cbn [negb app]. eauto.
Qed.

Lemma bracket_enter_reindents_current_line_witness :
  exists e insertion,
    fst (bracketEdits 3 (js "  foo {") (js "      }") (js "c") exampleOptions)
    = [e; insertion]
    /\ replaceInLine (js "      }") 0 6 (newText e) = js "  }".
Proof.
  destruct (proj1 (bracket_enter_reindents_current_line 3 (js "  foo {") (js "      }")
                     (js "c") exampleOptions eq_refl))
    as (e & insertion & He & _); [discriminate|].
  exists e, insertion. split; [exact He|].
  cbn in He. injection He as <- _. reflexivity.
Defined.

(** ** The status item *)



Lemma cancel_silent (h : nat) (m : Manager) (src : TokenSource) :
  sources m !! h = Some src -> listener src = None ->
  requestStatusItem (cancel h m) = requestStatusItem m.
Proof.
  intros Hl Hn. unfold cancel. rewrite Hl, Hn. now destruct (cancelled src).
Qed.







(** ** Requests that are retired, and requests that are lost *)

(** X10: [withRequestToken] leaves the slot empty when it returns, whatever
    it finds there.  If it finds the source of another, newer request that
    is not cancelled, it disposes that source without cancelling it and
    takes it out of the slot: the cancelling handler of the editor events
    then has nothing to cancel, and the token of the newer request stays
    uncancelled. *)
Theorem stale_continuation_detaches_successor :
  forall (name : jsstring) (h k : nat) (out : Settled (option (list TextEdit)))
         (m : Manager) (src : TokenSource),
    requestTokenSource m = Some k -> k <> h ->
    sources m !! k = Some src -> cancelled src = false ->
    requestTokenSource (fst (fst (withRequestToken_resume name h out m))) = None
    /\ sources (fst (fst (withRequestToken_resume name h out m))) !! k
       = Some (disposeSource src)
    /\ cancelHandler (fst (fst (withRequestToken_resume name h out m)))
       = fst (fst (withRequestToken_resume name h out m))
    /\ isCancellationRequested k
         (cancelHandler (fst (fst (withRequestToken_resume name h out m)))) = false.
Proof.
  intros name h k out m src Hs Hne Hl Hc.
  destruct (withRequestToken_resume_manager name h out m) as [i ->].
  assert (Hslot : requestTokenSource (set_status i (releaseSlot m)) = None)
    by apply releaseSlot_slot.
  assert (Hlook : sources (set_status i (releaseSlot m)) !! k = Some (disposeSource src)).
  { cbn [set_status sources]. rewrite releaseSlot_lookup, decide_True, Hl by assumption.
    reflexivity. }
  assert (Hid : cancelHandler (set_status i (releaseSlot m)) = set_status i (releaseSlot m))
    by (unfold cancelHandler; now rewrite Hslot).
  repeat split; try assumption.
  rewrite Hid. unfold isCancellationRequested. now rewrite Hlook.
Qed.

Lemma stale_continuation_detaches_successor_witness :
  isCancellationRequested 1
    (cancelHandler
       (fst (fst (withRequestToken_resume format 0 (Resolved None)
                    (fst (withRequestToken_start format requestInFlight)))))) = false.
Proof.
  exact (proj2 (proj2 (proj2
           (stale_continuation_detaches_successor format 0 1 (Resolved None)
              (fst (withRequestToken_start format requestInFlight))
              (freshSource format) eq_refl ltac:(discriminate) eq_refl eq_refl)))).
Defined.

Lemma flat_map_nil {A B} (f : A -> list B) (l : list A) :
  (forall x, f x = []) -> flat_map f l = [].
Proof. intros H. induction l as [|x l IH]; cbn; [reflexivity|]. now rewrite H, IH. Qed.

Lemma cancelling_cancels_slot (r : Runtime) (h : nat) :
  RuntimeInv r -> requestTokenSource (manager r) = Some h ->
  HCancel ∈ listening r ->
  isCancellationRequested h (manager (step Cancelling r)) = true.
Proof.
  intros [Hs _ _] Hslot Hlisten. cbn [step]. rewrite bool_decide_eq_true_2 by assumption.
  cbn [set_manager manager]. apply isCancellationRequested_true.
  destruct (slot_source _ Hs h Hslot) as (s & Hl & _).
  rewrite cancelHandler_lookup, decide_True, Hl by assumption.
  eexists. split; [reflexivity|]. apply cancelOnce_fields.
Qed.

(** X11: a request that is in the slot when a cancelling editor event is
    delivered (CursorMoved, CursorMovedI, InsertEnter, TextChangedI,
    TextChangedP, TextChanged), or when a newer request starts, is retired
    for good: whatever steps follow and whatever its operation returns, its
    continuation gets null from [withRequestToken], applies no edit and
    moves no cursor. *)
Theorem retired_request_never_applies_edits :
  forall (prefs : FormatPreferences) (tr0 : list Label) (h : nat) (r' : Runtime),
    requestTokenSource (manager (run tr0 (construct prefs))) = Some h ->
    (exists name, r' = step (Request name) (run tr0 (construct prefs)))
    \/ (HCancel ∈ listening (run tr0 (construct prefs))
        /\ exists isWord w e t,
            cancels e = true
            /\ r' = fst (deliver isWord w e (run tr0 (construct prefs), t))) ->
    forall (tr : list Label)
           (getChangedFromEdits : Position -> list TextEdit -> option Position)
           (c : Collaborators) (doc : Document) (ch name : jsstring) (insertLeave : bool)
           (options : FormatOptions) (rg : Range)
           (out : Settled (option (list TextEdit))),
      snd (withRequestToken_resume name h out (manager (run tr r'))) = None
      /\ List.filter isEditorEffect
           (snd (fst (tryFormatOnType_resume getChangedFromEdits c doc ch insertLeave h
                        (manager (run tr r'))))) = []
      /\ snd (documentFormat_resume c h options (manager (run tr r'))) = Resolved false
      /\ List.filter isEditorEffect
           (snd (fst (documentFormat_resume c h options (manager (run tr r'))))) = []
      /\ snd (documentRangeFormat_resume c h rg options (manager (run tr r')))
         = Resolved (-1)
      /\ List.filter isEditorEffect
           (snd (fst (documentRangeFormat_resume c h rg options (manager (run tr r')))))
         = [].
Proof.
  intros prefs tr0 h r' Hslot Hr' tr gc c doc ch name insertLeave options rg out.
  pose proof (RuntimeInv_run tr0 _ (RuntimeInv_construct prefs)) as Hinv.
  set (r := run tr0 (construct prefs)) in *.
  assert (Hc : isCancellationRequested h (manager (run tr r')) = true).
  { apply run_keeps_cancelled.
    destruct Hr' as [[n ->]|(Hlisten & isWord & w & e & t & He & ->)].
    - rewrite step_Request_manager. apply isCancellationRequested_true.
      destruct (start_supersedes n h (manager r) (inv_slot _ Hinv) Hslot)
        as ((s & Hl & Hcs & _) & _). eauto.
    - unfold deliver, stepsOf. cbn [fst snd]. rewrite He, run_app.
      apply run_keeps_cancelled. now apply cancelling_cancels_slot. }
  destruct (cancelled_resume_applies_nothing gc c doc ch name insertLeave options rg
              out h (manager (run tr r')) Hc)
    as ((H1 & _) & (_ & H2) & (H3 & H4) & (H5 & H6)).
  repeat split; assumption.
Qed.

Lemma retired_request_never_applies_edits_witness :
  snd (documentFormat_resume exampleCollaborators 0 exampleOptions
         (manager (run [ConfigurationChanged examplePreferences]
                     (fst (deliver exampleIsWord exampleWorkspace CursorMovedI
                             (run [Request format] (construct examplePreferences),
                              mkTiming None None None))))))
  = Resolved false.
Proof.
  assert (Hl : HCancel ∈ listening (run [Request format] (construct examplePreferences)))
    by (apply (bool_decide_unpack _); reflexivity).
  refine (proj1 (proj2 (proj2
            (retired_request_never_applies_edits examplePreferences [Request format] 0
               (fst (deliver exampleIsWord exampleWorkspace CursorMovedI
                       (run [Request format] (construct examplePreferences),
                        mkTiming None None None)))
               eq_refl _ [ConfigurationChanged examplePreferences] exampleChanged
               exampleCollaborators exampleDocument [LF] format false exampleOptions
               (Range_create4 0 0 1 0) (Resolved None))))).
  right. split; [exact Hl|].
  exists exampleIsWord, exampleWorkspace, CursorMovedI, (mkTiming None None None).
  split; reflexivity.
Defined.

(** ** Preferences *)

Lemma guards_without_formatOnType (isWord : jsstring -> bool) (prefs : FormatPreferences)
    (w : Workspace) (ch : jsstring) (bufnr : Z) :
  formatOnType prefs = false -> tryFormatOnType_guards isWord prefs w ch bufnr = None.
Proof.
  intros H. unfold tryFormatOnType_guards. rewrite H. cbn [negb].
  now rewrite orb_true_r.
Qed.

(** X12: while [formatOnType] is disabled, no editor event starts a request:
    after the handlers of the event have run, the pending provider calls
    are the same and no token source has been created. *)
Theorem no_request_when_on_type_disabled :
  forall (isWord : jsstring -> bool) (w : Workspace) (e : Event) (r : Runtime)
         (t : Timing),
    formatOnType (preferences r) = false ->
    pending (fst (deliver isWord w e (r, t))) = pending r
    /\ length (sources (manager (fst (deliver isWord w e (r, t)))))
       = length (sources (manager r)).
Proof.
  intros isWord w e r t Hoff. unfold deliver, stepsOf. cbn [fst snd].
  set (first := if cancels e then [Cancelling] else []).
  assert (Hprefs : preferences (run first r) = preferences r).
  { subst first. destruct (cancels e); [|reflexivity]. cbn. now case_bool_decide. }
  rewrite flat_map_nil, app_nil_r.
  - subst first. destruct (cancels e); [|now split]. cbn [run fold_left step].
    case_bool_decide; [|now split]. cbn [set_manager pending manager].
    split; [reflexivity|]. unfold cancelHandler.
    destruct (requestTokenSource (manager r)); [|reflexivity].
    cbn [set_slot sources]. apply cancel_length.
  - intros call. unfold invoke.
    now rewrite guards_without_formatOnType by (now rewrite Hprefs).
Qed.

Lemma no_request_when_on_type_disabled_witness :
  pending (fst (deliver exampleIsWord exampleWorkspace (Enter 1)
                  (construct (mkFormatPreferences false [] [] true true),
                   mkTiming None None None))) = [].
Proof.
  exact (proj1 (no_request_when_on_type_disabled exampleIsWord exampleWorkspace (Enter 1)
                  (construct (mkFormatPreferences false [] [] true true))
                  (mkTiming None None None) eq_refl)).
Defined.



(** ** The save-time format when the provider fails *)

(** X14: when the provider call of a save-time format fails, the failure is
    what the wait-until settles with, and the timer is not cleared (the
    handler leaves before [clearTimeout]): it still runs when it is due and
    cancels the token of the finished request, which changes nothing else,
    neither the request slot nor the status item nor what the wait-until
    settled with. *)
Theorem failed_save_leaves_timer_armed :
  forall (prefs : FormatPreferences) (tr : list Label) (languageId msg : jsstring)
         (options : FormatOptions) (now : Z),
    HWillSave ∈ listening (run tr (construct prefs)) ->
    includes (formatOnSaveFiletypes (preferences (run tr (construct prefs)))) languageId
    || existsb (fun item => jsstring_eqb item (js "*"))
         (formatOnSaveFiletypes (preferences (run tr (construct prefs)))) = true ->
    let r := run tr (construct prefs) in
    let h := length (sources (manager r)) in
    let r2 := step (SettleSave h (Rejected msg))
                (step (WillSave languageId true (Resolved options) now) r) in
    waitUntil r2 = waitUntil r ++ [(h, Rejected msg)]
    /\ timers r2 = timers r ++ [(h, now + 1000)]
    /\ ~ In (PendingSave h) (pending r2)
    /\ (forall t, now + 1000 <= t ->
          isCancellationRequested h (manager (step (Timeout t h) r2)) = true
          /\ requestTokenSource (manager (step (Timeout t h) r2))
             = requestTokenSource (manager r)
          /\ requestStatusItem (manager (step (Timeout t h) r2))
             = requestStatusItem (manager r)
          /\ waitUntil (step (Timeout t h) r2) = waitUntil r2
          /\ pending (step (Timeout t h) r2) = pending r2).
Proof.
  intros prefs tr languageId msg options now Hlisten Hft r h r2.
  pose proof (RuntimeInv_run tr _ (RuntimeInv_construct prefs)) as Hinv.
  fold r in Hinv, Hlisten, Hft. subst h.
  set (h := length (sources (manager r))) in *.
  assert (Hex : existsb (isPendingSave h) (pending r ++ [PendingSave h]) = true).
  { apply existsb_exists. exists (PendingSave h). split.
    - apply in_or_app. right. now left.
    - cbn. now apply bool_decide_eq_true_2. }
  assert (E2 : r2 = mkRuntime
                 (set_sources (fun l => l ++ [saveSource]) (manager r)) (preferences r)
                 (List.filter (fun p => negb (isPendingSave h p))
                    (pending r ++ [PendingSave h]))
                 (timers r ++ [(h, now + 1000)])
                 (listening r) (disposables r) (returned r)
                 (waitUntil r ++ [(h, Rejected msg)]) (effects r)).
  { subst r2. cbn [step]. rewrite bool_decide_eq_true_2 by assumption.
    unfold willSave_start. rewrite Hft. cbn [negb].
    unfold willSave_resume. cbn [pending]. fold h. now rewrite Hex. }
  pose proof (fresh_timer r (now + 1000) Hinv) as Hfind. fold h in Hfind.
  rewrite E2. cbn [waitUntil timers pending]. split; [reflexivity|].
  split; [reflexivity|]. split.
  - intros Hin. apply filter_In in Hin as [_ Hin]. cbn in Hin.
    now rewrite bool_decide_eq_true_2 in Hin.
  - intros t Ht. cbn [step]. unfold timeout. cbn [timers].
    rewrite Hfind.
    destruct (Z.leb_spec (now + 1000) t); [|lia].
    cbn [manager waitUntil pending].
    assert (Hlook : (sources (manager r) ++ [saveSource]) !! h = Some saveSource)
      by now apply list_lookup_middle.
    split; [|split; [|split; [|split; reflexivity]]].
    + unfold isCancellationRequested. rewrite cancel_lookup, decide_True by reflexivity.
      cbn [set_sources sources]. now rewrite Hlook.
    + now rewrite cancel_slot.
    + now rewrite (cancel_silent h _ saveSource).
Qed.

Lemma failed_save_leaves_timer_armed_witness :
  timers (step (SettleSave 0 (Rejected (js "failed")))
            (step (WillSave (js "c") true (Resolved exampleOptions) 0)
               (run [] (construct examplePreferences))))
  = [(0%nat, 1000)].
Proof.
  assert (H : HWillSave ∈ listening (run [] (construct examplePreferences)))
    by (apply (bool_decide_unpack _); reflexivity).
  exact (proj1 (proj2 (failed_save_leaves_timer_armed examplePreferences []
                         (js "c") (js "failed") exampleOptions 0 H eq_refl))).
Defined.

(** ** From a keystroke to a request *)

Lemma onTextChangedI_fires (isWord : jsstring -> bool) (prefs : FormatPreferences)
    (w : Workspace) (now bufnr T1 : Z) (pre : jsstring) (t : Timing) (doc : Document)
    (p : N) :
  lastInsert t = Some T1 -> T1 <> 0 -> now - T1 <= 300 ->
  last pre = Some p ->
  tryFormatOnType_guards isWord prefs w [p] bufnr = Some doc ->
  onTextChangedI isWord prefs w now bufnr pre t
  = (mkTiming (Some now) None (leaveBufnr t), [mkOnTypeCall [p] bufnr false]).
Proof.
  intros HT1 Hnz Hgap Hlast Hg.
  assert (Hfacts : formatOnType prefs = true /\ isWord [p] = false
                   /\ exists d, getDocument w bufnr = Some d
                                /\ attached d = true /\ isCommandLine d = false).
  { revert Hg. unfold tryFormatOnType_guards.
    case_bool_decide; cbn [orb]; [discriminate|].
    destruct (isWord [p]); cbn [orb]; [discriminate|].
    destruct (formatOnType prefs); cbn [negb]; [|discriminate].
    destruct (getSession w bufnr); [discriminate|].
    destruct (getDocument w bufnr) as [d|]; [|discriminate].
    destruct (attached d) eqn:Ha; cbn [negb orb]; [|discriminate].
    destruct (isCommandLine d) eqn:Hc; [discriminate|].
    intros _. split; [reflexivity|]. split; [reflexivity|]. exists d. now repeat split. }
  destruct Hfacts as (Hon & Hword & d & Hd & Ha & Hc).
  unfold onTextChangedI. cbn [lastInsert changedTs leaveBufnr]. rewrite HT1.
  cbn [truthy default from_option id].
  destruct (Z.eqb_spec T1 0) as [?|_]; [contradiction|].
  destruct (Z.gtb_spec (now - T1) 300) as [?|_]; [lia|]. cbn [negb orb].
  rewrite Hd, Hc, Ha. cbn [negb orb].
  now rewrite str_at_last, Hlast, Hon, Hword.
Qed.

Lemma step_Cancelling_fields (r : Runtime) :
  preferences (step Cancelling r) = preferences r
  /\ listening (step Cancelling r) = listening r
  /\ pending (step Cancelling r) = pending r
  /\ length (sources (manager (step Cancelling r))) = length (sources (manager r)).
Proof.
  cbn [step]. case_bool_decide; [|now repeat split].
  cbn [set_manager preferences listening pending manager]. repeat split.
  unfold cancelHandler. destruct (requestTokenSource (manager r)); [|reflexivity].
  cbn [set_slot sources]. apply cancel_length.
Qed.

Lemma step_Request_fields (name : jsstring) (r : Runtime) :
  pending (step (Request name) r)
  = pending r ++ [PendingRequest (length (sources (manager r))) name]
  /\ requestTokenSource (manager (step (Request name) r))
     = Some (length (sources (manager r)))
  /\ sources (manager (step (Request name) r)) !! length (sources (manager r))
     = Some (freshSource name)
  /\ listening (step (Request name) r) = listening r.
Proof.
  pose proof (withRequestToken_start_lookup name (length (sources (manager r)))
                (manager r)) as Hlook.
  destruct (withRequestToken_start_token name (manager r)) as [Hh Hs].
  cbn [step]. destruct (withRequestToken_start name (manager r)) as [m' h].
  cbn [fst snd pending manager listening] in *. subst h.
  rewrite decide_True in Hlook by reflexivity. now repeat split.
Qed.

(** X15: a keystroke followed within 300 ms by its text change, for a
    character that passes the guards of [tryFormatOnType], starts exactly
    one request, named 'onTypeFormat ', which takes the slot; the keystroke
    itself starts nothing.  The keystroke is used up: a further text change
    starts no request, and as a cancelling event it cancels the request the
    first one started. *)
Theorem keystroke_starts_one_request :
  forall (isWord : jsstring -> bool) (w : Workspace) (r : Runtime) (t : Timing)
         (now0 now1 bufnr : Z) (pre : jsstring) (p : N) (doc : Document),
    HInsertCharPre ∈ listening r -> HTextChangedI ∈ listening r ->
    now0 <> 0 -> now1 - now0 <= 300 -> last pre = Some p ->
    tryFormatOnType_guards isWord (preferences r) w [p] bufnr = Some doc ->
    let s1 := deliver isWord w (InsertCharPre now0) (r, t) in
    let s2 := deliver isWord w (TextChangedI now1 bufnr pre) s1 in
    fst s1 = r
    /\ pending (fst s2)
       = pending r ++ [PendingRequest (length (sources (manager r))) onTypeFormat]
    /\ requestTokenSource (manager (fst s2)) = Some (length (sources (manager r)))
    /\ (forall w' now' bufnr' pre',
          pending (fst (deliver isWord w' (TextChangedI now' bufnr' pre') s2))
          = pending (fst s2)
          /\ (HCancel ∈ listening r ->
              isCancellationRequested (length (sources (manager r)))
                (manager (fst (deliver isWord w' (TextChangedI now' bufnr' pre') s2)))
              = true)).
Proof.
  intros isWord w r t now0 now1 bufnr pre p doc Hkey Htext Hnz Hgap Hlast Hg s1 s2.
  destruct (step_Cancelling_fields r) as (Hp1 & Hl1 & Hpend1 & Hlen1).
  assert (E1 : s1 = (r, onInsertCharPre now0 t)).
  { subst s1. unfold deliver, stepsOf. cbn [cancels handle fst snd run fold_left app].
    now rewrite bool_decide_eq_true_2 by assumption. }
  assert (Hfire : onTextChangedI isWord (preferences (step Cancelling r)) w now1 bufnr pre
                    (onInsertCharPre now0 t)
                  = (mkTiming (Some now1) None (leaveBufnr t),
                     [mkOnTypeCall [p] bufnr false])).
  { rewrite Hp1.
    now apply (onTextChangedI_fires isWord (preferences r) w now1 bufnr now0 pre
                 (onInsertCharPre now0 t) doc p). }
  assert (E2 : s2 = (step (Request onTypeFormat) (step Cancelling r),
                     mkTiming (Some now1) None (leaveBufnr t))).
  { subst s2. rewrite E1. unfold deliver, stepsOf.
    cbn [cancels handle fst snd run fold_left app].
    rewrite Hl1, bool_decide_eq_true_2 by assumption. rewrite Hfire.
    cbn [fst snd flat_map run fold_left app]. unfold invoke.
    cbn [call_ch call_bufnr]. now rewrite Hp1, Hg. }
  destruct (step_Request_fields onTypeFormat (step Cancelling r))
    as (Hpend2 & Hslot2 & Hlook2 & Hl2).
  rewrite Hlen1 in Hpend2, Hslot2, Hlook2. rewrite Hpend1 in Hpend2.
  split; [now rewrite E1|]. rewrite E2. cbn [fst].
  split; [exact Hpend2|]. split; [exact Hslot2|].
  intros w' now' bufnr' pre'.
  set (r2 := step (Request onTypeFormat) (step Cancelling r)) in *.
  assert (E3 : fst (deliver isWord w' (TextChangedI now' bufnr' pre')
                      (r2, mkTiming (Some now1) None (leaveBufnr t)))
               = step Cancelling r2).
  { unfold deliver, stepsOf. cbn [cancels handle fst snd run fold_left app].
    assert (Hnone : forall prefs',
               snd (onTextChangedI isWord prefs' w' now' bufnr' pre'
                      (mkTiming (Some now1) None (leaveBufnr t))) = [])
      by (intros; now apply onTextChangedI_unrecorded).
    destruct (bool_decide (HTextChangedI ∈ listening (step Cancelling r2)));
      [rewrite Hnone|]; reflexivity. }
  rewrite E3. destruct (step_Cancelling_fields r2) as (_ & _ & Hpend3 & _).
  split; [exact Hpend3|]. intros Hcancel.
  cbn [step]. rewrite bool_decide_eq_true_2 by (rewrite Hl2, Hl1; exact Hcancel).
  cbn [set_manager manager]. apply isCancellationRequested_true.
  rewrite cancelHandler_lookup, decide_True, Hlook2 by exact Hslot2.
  eexists. split; [reflexivity|]. reflexivity.
Qed.

Lemma keystroke_starts_one_request_witness :
  pending
    (fst (deliver exampleIsWord exampleWorkspace (TextChangedI 1200 1 (js "  foo("))
            (deliver exampleIsWord exampleWorkspace (InsertCharPre 1000)
               (construct examplePreferences, mkTiming None None None))))
  = [PendingRequest 0 onTypeFormat].
Proof.
  assert (H1 : HInsertCharPre ∈ listening (construct examplePreferences))
    by (apply (bool_decide_unpack _); reflexivity).
  assert (H2 : HTextChangedI ∈ listening (construct examplePreferences))
    by (apply (bool_decide_unpack _); reflexivity).
  refine (proj1 (proj2 (keystroke_starts_one_request exampleIsWord exampleWorkspace
                          (construct examplePreferences) (mkTiming None None None)
                          1000 1200 1 (js "  foo(") 40%N exampleDocument
                          H1 H2 _ _ eq_refl eq_refl))).
  - discriminate.
  - lia.
Defined.

(** ** The commands when nothing intervenes *)



